(** * dif-jsonmutator: the schema-walking mutation engine of [src/main.py]

    A shallow embedding of class [JSONMutator]: the traversal
    [_mutate_recursive], the scalar mutators [_mutate_string],
    [_mutate_integer], [_mutate_number], [_mutate_boolean] and the driver
    [mutate], followed by the properties the specification states about
    them.

    Python values are a tagged union, the process-global [random] module and
    the [logging] calls are an explicit state, and a raised exception is an
    outcome of its own, so that "returns" and "raises" are both statements
    about the same function. *)

From Stdlib Require Import String Ascii ZArith NArith List Bool Lia.
From Stdlib Require Import PrimFloat SpecFloat FloatOps FloatAxioms FloatLemmas.
From Stdlib Require Uint63.
Import ListNotations.

Set Warnings "-inexact-float,-register-all,-notation-for-abbreviation".
Local Open Scope Z_scope.

(** ** Values *)

(** A Python [str] is a sequence of code points. *)
Definition pystr := list N.

(** The [str] written by an ASCII literal of the source. *)
Definition lit (s : string) : pystr :=
  map N_of_ascii (list_ascii_of_string s).

Fixpoint pystr_eqb (s t : pystr) : bool :=
  match s, t with
  | [], [] => true
  | c :: s', d :: t' => N.eqb c d && pystr_eqb s' t'
  | _, _ => false
  end.

(** What [json.load] produces, and what the engine returns: [None], [bool],
    [int] (unbounded), [float] (binary64), [str], [list] and [dict] with [str]
    keys.  A [dict] keeps its items in insertion order. *)
Inductive value : Type :=
| VNone
| VBool (b : bool)
| VInt (z : Z)
| VFloat (f : float)
| VStr (s : pystr)
| VList (l : list value)
| VDict (d : list (pystr * value)).

Definition dict := list (pystr * value).

(** The exception classes the engine can meet. *)
Inductive exn : Type :=
| TypeError
| AttributeError
| KeyError
| OverflowError
| ZeroDivisionError.

Definition exn_eqb (a b : exn) : bool :=
  match a, b with
  | TypeError, TypeError
  | AttributeError, AttributeError
  | KeyError, KeyError
  | OverflowError, OverflowError
  | ZeroDivisionError, ZeroDivisionError => true
  | _, _ => false
  end.

Inductive outcome (A : Type) : Type :=
| Ok (a : A)
| Raise (e : exn).
Arguments Ok {A} a.
Arguments Raise {A} e.

(** ** The state the engine runs in

    [tape] is the stream of raw draws the [random] module will hand out (any
    stream is possible: the source never seeds it); [warnings] collects the
    type tags passed to [logging.warning]. *)
Record state : Type := mkState {
  tape : list N;
  warnings : list value
}.

Definition M (A : Type) : Type := state -> outcome A * state.

Definition ret {A} (a : A) : M A := fun st => (Ok a, st).

Definition raise {A} (e : exn) : M A := fun st => (Raise e, st).

Definition bind {A B} (m : M A) (k : A -> M B) : M B :=
  fun st =>
    match m st with
    | (Ok a, st') => k a st'
    | (Raise e, st') => (Raise e, st')
    end.

Definition lift {A} (o : outcome A) : M A := fun st => (o, st).

(** [try: m  except e: handler] *)
Definition try_except {A} (m : M A) (e : exn) (handler : M A) : M A :=
  fun st =>
    match m st with
    | (Ok a, st') => (Ok a, st')
    | (Raise e', st') => if exn_eqb e' e then handler st' else (Raise e', st')
    end.

Declare Scope engine_scope.
Delimit Scope engine_scope with engine.
Notation "x <- m ;; k" := (bind m (fun x => k))
  (at level 61, m at next level, right associativity) : engine_scope.
Notation "m ;;; k" := (bind m (fun _ => k))
  (at level 61, right associativity) : engine_scope.
Local Open Scope engine_scope.

(** [for x in l: acc = body(acc, x)], stopping at the first exception. *)
Definition for_each {A B} (body : B -> A -> M B) : list A -> B -> M B :=
  fix go (l : list A) (acc : B) : M B :=
    match l with
    | [] => ret acc
    | x :: l' => bind (body acc x) (go l')
    end.

(** [logging.warning(f"Unsupported type: {data_type}")] *)
Definition warn (data_type : value) : M unit :=
  fun st => (Ok tt, mkState (tape st) (warnings st ++ [data_type])).

(** ** The [random] module *)

(** One raw draw reduced to [0 <= k < n]; an exhausted tape keeps giving 0. *)
Definition randbelow (n : N) : M N :=
  fun st =>
    match tape st with
    | [] => (Ok 0%N, st)
    | r :: t => (Ok (r mod n)%N, mkState t (warnings st))
    end.

(** [random.randint(a, b)]: an integer in [a, b], both ends included. *)
Definition randint (a b : Z) : M Z :=
  k <- randbelow (Z.to_N (b - a + 1)) ;; ret (a + Z.of_N k).

(** [random.choice(seq)] for a non-empty [seq]. *)
Definition choice {A} (d : A) (seq : list A) : M A :=
  i <- randbelow (N.of_nat (length seq)) ;; ret (nth (N.to_nat i) seq d).

(** [random.random()]: [k / 2^53] for a 53-bit [k]. *)
Definition random : M float :=
  k <- randbelow (2 ^ 53) ;;
  ret (SF2Prim (binary_normalize prec emax (Z.of_N k) (-53) false)).

(** [random.uniform(a, b)] is [a + (b - a) * random()]. *)
Definition uniform (a b : float) : M float :=
  r <- random ;; ret (a + (b - a) * r)%float.

(** ** Dictionaries *)

Fixpoint dict_get (key : pystr) (d : dict) : option value :=
  match d with
  | [] => None
  | (k, v) :: d' => if pystr_eqb k key then Some v else dict_get key d'
  end.

(** [d[key] = v]: an existing key keeps its place, a new one goes last. *)
Fixpoint dict_set (key : pystr) (v : value) (d : dict) : dict :=
  match d with
  | [] => [(key, v)]
  | (k, w) :: d' =>
      if pystr_eqb k key then (k, v) :: d' else (k, w) :: dict_set key v d'
  end.

Definition keys (d : dict) : list pystr := map fst d.

(** ** Python operators on these values *)

(** [v == "literal"] *)
Definition py_eq_str (v : value) (s : pystr) : bool :=
  match v with
  | VStr t => pystr_eqb t s
  | _ => false
  end.

Fixpoint is_prefix (p s : pystr) : bool :=
  match p, s with
  | [], _ => true
  | c :: p', d :: s' => N.eqb c d && is_prefix p' s'
  | _ :: _, [] => false
  end.

Fixpoint is_substring (p s : pystr) : bool :=
  is_prefix p s ||
  match s with
  | [] => false
  | _ :: s' => is_substring p s'
  end.

(** [key in container] for a [str] key. *)
Definition py_in (key : pystr) (container : value) : outcome bool :=
  match container with
  | VDict d => Ok (match dict_get key d with Some _ => true | None => false end)
  | VList l => Ok (existsb (fun x => py_eq_str x key) l)
  | VStr s => Ok (is_substring key s)
  | _ => Raise TypeError
  end.

(** [container[key]] for a [str] key: a list or a [str] wants an integer
    index. *)
Definition py_getitem (container : value) (key : pystr) : outcome value :=
  match container with
  | VDict d =>
      match dict_get key d with
      | Some v => Ok v
      | None => Raise KeyError
      end
  | _ => Raise TypeError
  end.

(** Numbers: [bool] is a subclass of [int]. *)
Inductive num : Type :=
| NInt (z : Z)
| NFloat (f : float).

Definition as_num (v : value) : option num :=
  match v with
  | VBool b => Some (NInt (if b then 1 else 0))
  | VInt z => Some (NInt z)
  | VFloat f => Some (NFloat f)
  | _ => None
  end.

(** [float(z)]: correctly rounded, [OverflowError] when [z] is out of the
    binary64 range. *)
Definition to_float (z : Z) : outcome float :=
  match binary_normalize prec emax z 0 false with
  | S754_infinity _ => Raise OverflowError
  | sf => Ok (SF2Prim sf)
  end.

Definition num_to_float (x : num) : outcome float :=
  match x with
  | NInt z => to_float z
  | NFloat f => Ok f
  end.

(** A binary operator on numbers: exact on two [int]s, on binary64 as soon as
    one side is a [float]. *)
Definition num_op (fi : Z -> Z -> outcome value)
    (ff : float -> float -> outcome value) (x y : num) : outcome value :=
  match x, y with
  | NInt a, NInt b => fi a b
  | _, _ =>
      match num_to_float x with
      | Raise e => Raise e
      | Ok a =>
          match num_to_float y with
          | Raise e => Raise e
          | Ok b => ff a b
          end
      end
  end.

Definition float_is_zero (f : float) : bool := PrimFloat.eqb f 0%float.

(** The C library's [floor], [fmod] and [copysign(0.0, x)] on binary64. *)
Definition float_floor (x : float) : float :=
  match Prim2SF x with
  | S754_finite s m e =>
      if 0 <=? e then x
      else SF2Prim (binary_normalize prec emax
                      (cond_Zopp s (Zpos m) / 2 ^ (- e)) 0 s)
  | _ => x
  end.

Definition float_fmod (x y : float) : float :=
  match Prim2SF x, Prim2SF y with
  | S754_nan, _ | _, S754_nan => nan
  | S754_infinity _, _ => nan
  | _, S754_zero _ => nan
  | S754_zero _, _ => x
  | S754_finite _ _ _, S754_infinity _ => x
  | S754_finite sx mx ex, S754_finite _ my ey =>
      let e := Z.min ex ey in
      let r := (Zpos mx * 2 ^ (ex - e)) mod (Zpos my * 2 ^ (ey - e)) in
      SF2Prim (binary_normalize prec emax (cond_Zopp sx r) e sx)
  end.

Definition float_signbit (x : float) : bool :=
  match Prim2SF x with
  | S754_zero s | S754_infinity s | S754_finite s _ _ => s
  | S754_nan => false
  end.

Definition signed_zero (x : float) : float :=
  if float_signbit x then (- 0)%float else 0%float.

(** [vx // wx] on floats for [wx] other than zero, as CPython's
    [float_floor_div] computes it. *)
Definition float_floordiv (vx wx : float) : float :=
  let mod_ := float_fmod vx wx in
  let div := ((vx - mod_) / wx)%float in
  let div :=
    if negb (float_is_zero mod_)
       && negb (Bool.eqb (PrimFloat.ltb wx 0) (PrimFloat.ltb mod_ 0))
    then (div - 1)%float else div in
  if negb (float_is_zero div) then
    let fl := float_floor div in
    if PrimFloat.ltb 0.5 (div - fl) then (fl + 1)%float else fl
  else signed_zero (vx / wx).

Fixpoint seq_repeat {A} (l : list A) (n : nat) : list A :=
  match n with
  | O => []
  | S n' => l ++ seq_repeat l n'
  end.

(** [a + b] *)
Definition py_add (a b : value) : outcome value :=
  match a, b with
  | VStr s, VStr t => Ok (VStr (s ++ t))
  | VList l, VList m => Ok (VList (l ++ m))
  | _, _ =>
      match as_num a, as_num b with
      | Some x, Some y =>
          num_op (fun i j => Ok (VInt (i + j)))
                 (fun f g => Ok (VFloat (f + g))) x y
      | _, _ => Raise TypeError
      end
  end.

(** [a - b] *)
Definition py_sub (a b : value) : outcome value :=
  match as_num a, as_num b with
  | Some x, Some y =>
      num_op (fun i j => Ok (VInt (i - j)))
             (fun f g => Ok (VFloat (f - g))) x y
  | _, _ => Raise TypeError
  end.

(** [a * b]: a sequence times an [int] repeats the sequence. *)
Definition py_mul (a b : value) : outcome value :=
  match a, as_num b with
  | VStr s, Some (NInt k) => Ok (VStr (seq_repeat s (Z.to_nat k)))
  | VList l, Some (NInt k) => Ok (VList (seq_repeat l (Z.to_nat k)))
  | _, _ =>
      match as_num a, b with
      | Some (NInt k), VStr s => Ok (VStr (seq_repeat s (Z.to_nat k)))
      | Some (NInt k), VList l => Ok (VList (seq_repeat l (Z.to_nat k)))
      | Some x, _ =>
          match as_num b with
          | Some y =>
              num_op (fun i j => Ok (VInt (i * j)))
                     (fun f g => Ok (VFloat (f * g))) x y
          | None => Raise TypeError
          end
      | None, _ => Raise TypeError
      end
  end.

(** [a // b] *)
Definition py_floordiv (a b : value) : outcome value :=
  match as_num a, as_num b with
  | Some x, Some y =>
      num_op (fun i j =>
                if j =? 0 then Raise ZeroDivisionError else Ok (VInt (i / j)))
             (fun f g =>
                if float_is_zero g then Raise ZeroDivisionError
                else Ok (VFloat (float_floordiv f g))) x y
  | _, _ => Raise TypeError
  end.

(** [a / b] for a [float] divisor [b]. *)
Definition py_truediv (a : value) (b : float) : outcome value :=
  match as_num a with
  | Some x =>
      match num_to_float x with
      | Raise e => Raise e
      | Ok f =>
          if float_is_zero b then Raise ZeroDivisionError
          else Ok (VFloat (f / b))
      end
  | None => Raise TypeError
  end.

(** [s[::-1]]: [str] and [list] can be sliced, nothing else here can (a
    [dict] rejects the slice as a key: [TypeError], as it is unhashable
    before Python 3.12). *)
Definition py_reverse (s : value) : outcome value :=
  match s with
  | VStr t => Ok (VStr (rev t))
  | VList l => Ok (VList (rev l))
  | _ => Raise TypeError
  end.

(** ** The engine *)

Section Engine.

(** [str.upper] and [str.lower] follow the case-mapping tables of the Python
    runtime, which are not part of the repository: the engine is stated for
    any pair of such maps. *)
Variables str_upper str_lower : pystr -> pystr.

(** [s.upper()], [s.lower()]: only a [str] has these methods. *)
Definition py_upper (s : value) : outcome value :=
  match s with
  | VStr t => Ok (VStr (str_upper t))
  | _ => Raise AttributeError
  end.

Definition py_lower (s : value) : outcome value :=
  match s with
  | VStr t => Ok (VStr (str_lower t))
  | _ => Raise AttributeError
  end.

Definition alphabet : pystr := lit "abcdefghijklmnopqrstuvwxyz".

(** [''.join(random.choice('abc...z') for _ in range(n))] *)
Definition random_letters (n : Z) : M pystr :=
  for_each (fun acc (_ : nat) => c <- choice 0%N alphabet ;; ret (acc ++ [c]))
           (seq 0 (Z.to_nat n)) [].

(** The list [mutation_strategies] of [_mutate_string], in source order. *)
Definition string_strategies : list (value -> M value) :=
  [ (fun s => k <- randint 1 5 ;;
              bangs <- lift (py_mul (VStr (lit "!")) (VInt k)) ;;
              lift (py_add s bangs));
    (fun s => lift (py_upper s));
    (fun s => lift (py_lower s));
    (fun s => lift (py_reverse s));
    (fun s => lift (py_add s (VStr (lit "<script>alert('XSS')</script>"))));
    (fun s => lift (py_add s (VStr (lit "' OR '1'='1"))));
    (fun s => lift (py_add s (VStr [0%N])));
    (fun _ => n <- randint 5 15 ;;
              letters <- random_letters n ;;
              ret (VStr letters)) ].

Definition _mutate_string (data : value) : M value :=
  strategy <- choice (fun s => ret s) string_strategies ;;
  strategy data.

(** The list [mutation_strategies] of [_mutate_integer].  In the fourth one
    the test of the conditional expression draws first, the divisor is a
    second draw. *)
Definition integer_strategies : list (value -> M value) :=
  [ (fun i => k <- randint 1 10 ;; lift (py_add i (VInt k)));
    (fun i => k <- randint 1 10 ;; lift (py_sub i (VInt k)));
    (fun i => k <- randint 1 3 ;; lift (py_mul i (VInt k)));
    (fun i => guard <- randint 1 3 ;;
              if negb (guard =? 0)
              then k <- randint 1 3 ;; lift (py_floordiv i (VInt k))
              else ret i);
    (fun _ => ret (VInt (2 ^ 31 - 1)));
    (fun _ => ret (VInt (- 2 ^ 31)));
    (fun _ => ret (VInt 0)) ].

Definition _mutate_integer (data : value) : M value :=
  strategy <- choice (fun i => ret i) integer_strategies ;;
  try_except (strategy data) OverflowError (ret data).

(** The list [mutation_strategies] of [_mutate_number]. *)
Definition number_strategies : list (value -> M value) :=
  [ (fun f => u <- uniform 0.1 1.0 ;; lift (py_add f (VFloat u)));
    (fun f => u <- uniform 0.1 1.0 ;; lift (py_sub f (VFloat u)));
    (fun f => u <- uniform 1.1 2.0 ;; lift (py_mul f (VFloat u)));
    (fun f => guard <- uniform 1.1 2.0 ;;
              if negb (float_is_zero guard)
              then u <- uniform 1.1 2.0 ;; lift (py_truediv f u)
              else ret f);
    (fun _ => ret (VFloat infinity));
    (fun _ => ret (VFloat neg_infinity));
    (fun _ => ret (VFloat nan)) ].

Definition _mutate_number (data : value) : M value :=
  strategy <- choice (fun f => ret f) number_strategies ;;
  try_except (strategy data) ZeroDivisionError (ret data).

(** [not random.choice([True, False])] *)
Definition _mutate_boolean : M value :=
  b <- choice true [true; false] ;; ret (VBool (negb b)).

(** The loop of the untyped branches: every value of the mapping is walked
    again under the empty schema. *)
Definition walk_untyped (rec : value -> value -> M value) (d : dict) : M value :=
  mutated_object <-
    for_each (fun acc (item : pystr * value) =>
                v <- rec (VDict []) (snd item) ;;
                ret (dict_set (fst item) v acc)) d [] ;;
  ret (VDict mutated_object).

Fixpoint _mutate_recursive (schema data : value) {struct data} : M value :=
  match schema with
  | VDict sch =>
      match dict_get (lit "type") sch with
      | Some data_type =>
          if py_eq_str data_type (lit "string") then _mutate_string data
          else if py_eq_str data_type (lit "integer") then _mutate_integer data
          else if py_eq_str data_type (lit "number") then _mutate_number data
          else if py_eq_str data_type (lit "boolean") then _mutate_boolean
          else if py_eq_str data_type (lit "null") then ret VNone
          else if py_eq_str data_type (lit "array") then
            match dict_get (lit "items") sch with
            | Some items =>
                match data with
                | VList l =>
                    mutated_array <-
                      for_each (fun acc item =>
                                  v <- _mutate_recursive items item ;;
                                  ret (acc ++ [v])) l [] ;;
                    ret (VList mutated_array)
                | _ => ret (VList [])
                end
            | None => ret (VList [])
            end
          else if py_eq_str data_type (lit "object") then
            match data with
            | VDict d =>
                match dict_get (lit "properties") sch with
                | Some properties =>
                    mutated_object <-
                      for_each (fun acc (item : pystr * value) =>
                                  declared <- lift (py_in (fst item) properties) ;;
                                  if (declared : bool) then
                                    sub <- lift (py_getitem properties (fst item)) ;;
                                    v <- _mutate_recursive sub (snd item) ;;
                                    ret (dict_set (fst item) v acc)
                                  else ret (dict_set (fst item) (snd item) acc))
                               d [] ;;
                    ret (VDict mutated_object)
                | None =>
                    (* no [return] is reached: the call yields [None] *)
                    ret VNone
                end
            | _ => ret (VDict [])
            end
          else warn data_type ;;; ret data
      | None =>
          match data with
          | VDict d => walk_untyped _mutate_recursive d
          | _ => ret data
          end
      end
  | _ =>
      match data with
      | VDict d => walk_untyped _mutate_recursive d
      | _ => ret data
      end
  end.

(** [mutate(iterations)] on a mutator built from [schema] and [sample]. *)
Definition mutate (schema sample : value) (iterations : Z) : M (list value) :=
  for_each (fun mutated_payloads (_ : nat) =>
              v <- _mutate_recursive schema sample ;;
              ret (mutated_payloads ++ [v]))
           (seq 0 (Z.to_nat iterations)) [].

End Engine.

(** ** Concrete inputs

    Case mapping restricted to ASCII letters, which is what [str.upper] and
    [str.lower] do on ASCII text; used to run the engine on examples. *)
Definition ascii_upper (s : pystr) : pystr :=
  map (fun c => if ((97 <=? c) && (c <=? 122))%N then (c - 32)%N else c) s.

Definition ascii_lower (s : pystr) : pystr :=
  map (fun c => if ((65 <=? c) && (c <=? 90))%N then (c + 32)%N else c) s.

(** The engine under that case mapping. *)
Definition run_recursive := _mutate_recursive ascii_upper ascii_lower.
Definition run_mutate := mutate ascii_upper ascii_lower.

(** A fresh process: the given raw draws, nothing logged yet. *)
Definition fresh (draws : list N) : state := mkState draws [].

(** [{"type": t}] *)
Definition typed (t : string) : value := VDict [(lit "type", VStr (lit t))].

(** [{"type": "array", "items": {"type": t}}] *)
Definition array_of (t : string) : dict :=
  [(lit "type", VStr (lit "array")); (lit "items", typed t)].

(** [{"type": "object", "properties": {"a": {"type": t}}}] *)
Definition field_a (t : string) : dict := [(lit "a", typed t)].

Definition object_with_a (t : string) : dict :=
  [(lit "type", VStr (lit "object")); (lit "properties", VDict (field_a t))].

(** [{"a": "x", "b": 42}] *)
Definition sample_ab : dict := [(lit "a", VStr (lit "x")); (lit "b", VInt 42)].

(** [{"a": {"b": 1}, "c": [2]}] *)
Definition sample_nested : value :=
  VDict [(lit "a", VDict [(lit "b", VInt 1)]); (lit "c", VList [VInt 2])].

(** ** Vocabulary of the statements *)

(** [threaded step xs st ys st']: starting in [st], the items of [xs] are
    processed in order, item [i] turning into [ys[i]] in the state its
    predecessors left, and the last one leaves [st']. *)
Inductive threaded {A B : Type} (step : A -> state -> B -> state -> Prop)
  : list A -> state -> list B -> state -> Prop :=
| threaded_nil : forall st, threaded step [] st [] st
| threaded_cons : forall x xs y ys st st1 st2,
    step x st y st1 ->
    threaded step xs st1 ys st2 ->
    threaded step (x :: xs) st (y :: ys) st2.

(** A call that returns. *)
Definition returns {A B : Type} (f : A -> M B) : A -> state -> B -> state -> Prop :=
  fun x st y st' => f x st = (Ok y, st').

(** What happens to one field of an object walked under [properties]: a
    declared field is mutated under its sub-schema, any other is kept. *)
Definition field_step (rec : value -> value -> M value) (properties : dict)
  : pystr * value -> state -> pystr * value -> state -> Prop :=
  fun item st item' st' =>
    fst item' = fst item /\
    match dict_get (fst item) properties with
    | Some sub => rec sub (snd item) st = (Ok (snd item'), st')
    | None => snd item' = snd item /\ st' = st
    end.

(** The body of the loop over [data.items()] in the object branch. *)
Definition object_body (rec : value -> value -> M value) (properties : value)
  : dict -> pystr * value -> M dict :=
  fun acc item =>
    declared <- lift (py_in (fst item) properties) ;;
    if (declared : bool) then
      sub <- lift (py_getitem properties (fst item)) ;;
      v <- rec sub (snd item) ;;
      ret (dict_set (fst item) v acc)
    else ret (dict_set (fst item) (snd item) acc).

(** Leaves no scalar strategy can fail on. *)
Definition string_ok (v : value) : bool :=
  match v with
  | VStr _ => true
  | _ => false
  end.

Definition integer_ok (v : value) : bool :=
  match as_num v with
  | Some _ => true
  | None => false
  end.

Definition number_ok (v : value) : bool :=
  match as_num v with
  | Some x =>
      match num_to_float x with
      | Ok _ => true
      | Raise _ => false
      end
  | None => false
  end.

(** [leaf_ok schema data]: along the walk of [data] under [schema], every
    value met under a ["string"] node is a [str], under an ["integer"] node a
    number, under a ["number"] node a number that fits binary64, and every
    ["properties"] consulted is a mapping. *)
Fixpoint leaf_ok (schema data : value) {struct data} : bool :=
  match schema with
  | VDict sch =>
      match dict_get (lit "type") sch with
      | Some data_type =>
          if py_eq_str data_type (lit "string") then string_ok data
          else if py_eq_str data_type (lit "integer") then integer_ok data
          else if py_eq_str data_type (lit "number") then number_ok data
          else if py_eq_str data_type (lit "boolean") then true
          else if py_eq_str data_type (lit "null") then true
          else if py_eq_str data_type (lit "array") then
            match dict_get (lit "items") sch, data with
            | Some items, VList l => forallb (leaf_ok items) l
            | _, _ => true
            end
          else if py_eq_str data_type (lit "object") then
            match data, dict_get (lit "properties") sch with
            | VDict d, Some (VDict properties) =>
                forallb (fun item : pystr * value =>
                           match dict_get (fst item) properties with
                           | Some sub => leaf_ok sub (snd item)
                           | None => true
                           end) d
            | VDict _, Some _ => false
            | _, _ => true
            end
          else true
      | None => true
      end
  | _ => true
  end.

(** Binary64 values that are not negative, and those that are not a zero. *)
Definition sf_nonneg (x : spec_float) : Prop :=
  match x with
  | S754_zero false | S754_infinity false | S754_nan
  | S754_finite false _ _ => True
  | _ => False
  end.

Definition sf_nonzero (x : spec_float) : Prop :=
  match x with
  | S754_zero _ => False
  | _ => True
  end.

(** The seven type tags the engine knows. *)
Definition supported_types : list string :=
  ["string"; "integer"; "number"; "boolean"; "null"; "array"; "object"]%string.

(** The index a draw below [n] gives in a state, and the state after that
    draw. *)
Definition first_draw (n : N) (st : state) : N :=
  match tape st with
  | [] => 0%N
  | r :: _ => (r mod n)%N
  end.

Definition advance (st : state) : state :=
  mkState (tl (tape st)) (warnings st).

(** Keys are pairwise different, as in any [dict]. *)
Fixpoint distinct (l : list pystr) : bool :=
  match l with
  | [] => true
  | k :: l' => negb (existsb (pystr_eqb k) l') && distinct l'
  end.

(** Every mapping reached through mappings has pairwise different keys
    (what [json.load] builds). *)
Fixpoint mappings_wf (v : value) : bool :=
  match v with
  | VDict d =>
      distinct (keys d) &&
      forallb (fun item : pystr * value => mappings_wf (snd item)) d
  | _ => true
  end.

(** What float arithmetic on [data] comes to: a [float] for a number that
    fits binary64, [OverflowError] for an [int] that does not, [TypeError]
    for anything that is not a number. *)
Definition number_arith_result (data : value) (r : outcome value) : Prop :=
  match as_num data with
  | None => r = Raise TypeError
  | Some x =>
      match num_to_float x with
      | Ok _ => exists g, r = Ok (VFloat g)
      | Raise _ => r = Raise OverflowError
      end
  end.

(** ** Auxiliary facts *)

Lemma pystr_eqb_eq (s t : pystr) : pystr_eqb s t = true <-> s = t.
Proof.
  revert t; induction s as [|c s IH]; intros [|d t]; simpl;
    try (split; [discriminate | congruence]); try tauto.
  rewrite andb_true_iff, N.eqb_eq, IH.
  split; [intros [-> ->]; reflexivity | intros H; inversion H; auto].
Qed.

Lemma pystr_eqb_refl (s : pystr) : pystr_eqb s s = true.
Proof. apply pystr_eqb_eq; reflexivity. Qed.

Lemma pystr_eqb_neq (s t : pystr) : s <> t -> pystr_eqb s t = false.
Proof.
  intros H; destruct (pystr_eqb s t) eqn:E; [|reflexivity].
  apply pystr_eqb_eq in E; contradiction.
Qed.

Lemma py_eq_str_true (v : value) (s : pystr) :
  py_eq_str v s = true <-> v = VStr s.
Proof.
  destruct v; simpl; try (split; [discriminate | congruence]).
  rewrite pystr_eqb_eq; split; congruence.
Qed.

Lemma py_eq_str_false (v : value) (s : pystr) :
  v <> VStr s -> py_eq_str v s = false.
Proof.
  intros H; destruct (py_eq_str v s) eqn:E; [|reflexivity].
  apply py_eq_str_true in E; contradiction.
Qed.

(** Induction on values that reaches inside lists and mappings. *)
Lemma value_nested_ind (P : value -> Prop) :
  P VNone ->
  (forall b, P (VBool b)) ->
  (forall z, P (VInt z)) ->
  (forall f, P (VFloat f)) ->
  (forall s, P (VStr s)) ->
  (forall l, Forall P l -> P (VList l)) ->
  (forall d, Forall (fun item => P (snd item)) d -> P (VDict d)) ->
  forall v, P v.
Proof.
  intros HN HB HI HF HS HL HD.
  fix IH 1.
  intros [ | b | z | f | s | l | d ].
  - exact HN.
  - apply HB.
  - apply HI.
  - apply HF.
  - apply HS.
  - apply HL. induction l as [|x l IHl]; constructor; [apply IH | exact IHl].
  - apply HD. induction d as [|[k x] d IHd]; constructor; [apply IH | exact IHd].
Qed.

(** *** Draws *)

Lemma randbelow_returns (n : N) (st : state) :
  exists k st', randbelow n st = (Ok k, st') /\
                warnings st' = warnings st /\
                (n <> 0%N -> (k < n)%N).
Proof.
  unfold randbelow. destruct (tape st) as [|r t].
  - exists 0%N, st. repeat split; lia.
  - exists (r mod n)%N, (mkState t (warnings st)). repeat split.
    intros Hn. apply N.mod_upper_bound; exact Hn.
Qed.

Lemma randint_returns (a b : Z) (st : state) :
  a <= b ->
  exists k st', randint a b st = (Ok k, st') /\
                warnings st' = warnings st /\ a <= k <= b.
Proof.
  intros Hab. unfold randint, bind.
  destruct (randbelow_returns (Z.to_N (b - a + 1)) st) as (k & st' & E & W & Hk).
  rewrite E. exists (a + Z.of_N k), st'. repeat split; try assumption; lia.
Qed.

Lemma choice_returns {A} (d : A) (seq : list A) (st : state) :
  seq <> [] ->
  exists x st', choice d seq st = (Ok x, st') /\
                warnings st' = warnings st /\ In x seq.
Proof.
  intros Hne. unfold choice, bind.
  destruct (randbelow_returns (N.of_nat (List.length seq)) st)
    as (k & st' & E & W & Hk).
  rewrite E. exists (nth (N.to_nat k) seq d), st'. repeat split; [exact W|].
  apply nth_In. destruct seq; [contradiction|]. simpl in *. lia.
Qed.

Lemma uniform_returns (a b : float) (st : state) :
  exists u st', uniform a b st = (Ok u, st').
Proof.
  unfold uniform, random, bind.
  destruct (randbelow_returns (2 ^ 53) st) as (k & st' & E & _).
  rewrite E. unfold ret. eauto.
Qed.

(** *** Loops *)

Lemma for_each_returns {A B} (body : B -> A -> M B) (l : list A) :
  Forall (fun x => forall acc st, exists acc' st', body acc x st = (Ok acc', st')) l ->
  forall acc st, exists r st', for_each body l acc st = (Ok r, st').
Proof.
  induction 1 as [|x l Hx _ IH]; intros acc st; simpl.
  - unfold ret; eauto.
  - unfold bind. destruct (Hx acc st) as (acc' & st' & E). rewrite E. apply IH.
Qed.

Lemma threaded_length {A B} (step : A -> state -> B -> state -> Prop)
    (xs : list A) (ys : list B) (st st' : state) :
  threaded step xs st ys st' -> List.length ys = List.length xs.
Proof. induction 1; simpl; congruence. Qed.

(** The loop [for x in l: acc.append(f(x))]. *)
Lemma append_loop_ok {A B} (f : A -> M B) (l : list A) :
  forall acc st out st',
    for_each (fun acc x => v <- f x ;; ret (acc ++ [v])) l acc st = (Ok out, st')
    <-> exists ys, out = acc ++ ys /\ threaded (returns f) l st ys st'.
Proof.
  induction l as [|x l IH]; intros acc st out st'; simpl.
  - unfold ret. split.
    + intros E; inversion E; subst. exists []. rewrite app_nil_r.
      split; [reflexivity | constructor].
    + intros (ys & -> & T). inversion T; subst. now rewrite app_nil_r.
  - unfold bind at 1. unfold bind at 1.
    destruct (f x st) as [[v|e] st1] eqn:E.
    + unfold ret at 1. rewrite IH. split.
      * intros (ys & -> & T). exists (v :: ys). rewrite <- app_assoc.
        split; [reflexivity|]. econstructor; [exact E | exact T].
      * intros (ys & -> & T). inversion T as [|? ? y ys' ? st2 ? S T']; subst.
        unfold returns in S. rewrite E in S. inversion S; subst.
        exists ys'. rewrite <- app_assoc. split; [reflexivity | exact T'].
    + split; [discriminate|].
      intros (ys & _ & T). inversion T as [|? ? y ys' ? st2 ? S T']; subst.
      unfold returns in S. rewrite E in S. discriminate.
Qed.

Lemma append_loop_raise {A B} (f : A -> M B) (l : list A) :
  forall acc st e st',
    for_each (fun acc x => v <- f x ;; ret (acc ++ [v])) l acc st = (Raise e, st')
    -> exists x st1, In x l /\ f x st1 = (Raise e, st').
Proof.
  induction l as [|x l IH]; intros acc st e st'; simpl.
  - unfold ret. discriminate.
  - unfold bind at 1. unfold bind at 1.
    destruct (f x st) as [[v|e0] st1] eqn:E.
    + unfold ret at 1. intros H. apply IH in H.
      destruct H as (y & st2 & Hin & H). exists y, st2. auto.
    + intros H; inversion H; subst. exists x, st. auto.
Qed.

(** *** Mappings *)

Lemma dict_get_none_keys (k : pystr) (d : dict) :
  dict_get k d = None <-> ~ In k (keys d).
Proof.
  induction d as [|[k0 v] d IH]; simpl.
  - tauto.
  - destruct (pystr_eqb k0 k) eqn:E.
    + apply pystr_eqb_eq in E. split; [discriminate | intros H; exfalso; auto].
    + rewrite IH. split.
      * intros H [H1|H1]; [|auto]. subst. rewrite pystr_eqb_refl in E. discriminate.
      * intros H H1; apply H; auto.
Qed.

Lemma dict_set_fresh (k : pystr) (v : value) (d : dict) :
  ~ In k (keys d) -> dict_set k v d = d ++ [(k, v)].
Proof.
  induction d as [|[k0 w] d IH]; simpl; intros H; [reflexivity|].
  rewrite pystr_eqb_neq by (intros ->; apply H; auto).
  rewrite IH by (intros H1; apply H; auto). reflexivity.
Qed.

Lemma keys_app (d1 d2 : dict) : keys (d1 ++ d2) = keys d1 ++ keys d2.
Proof. apply map_app. Qed.


Lemma threaded_fields_keys (rec : value -> value -> M value) (p d out : dict)
    (st st' : state) :
  threaded (field_step rec p) d st out st' -> keys out = keys d.
Proof.
  induction 1 as [|x xs y ys st st1 st2 [Hk _] _ IH]; simpl; congruence.
Qed.

Lemma object_body_mapping (rec : value -> value -> M value) (p acc : dict)
    (item : pystr * value) (st : state) :
  object_body rec (VDict p) acc item st =
  match dict_get (fst item) p with
  | Some sub =>
      match rec sub (snd item) st with
      | (Ok v, st1) => (Ok (dict_set (fst item) v acc), st1)
      | (Raise e, st1) => (Raise e, st1)
      end
  | None => (Ok (dict_set (fst item) (snd item) acc), st)
  end.
Proof.
  unfold object_body, bind, lift, ret. simpl.
  destruct (dict_get (fst item) p); reflexivity.
Qed.

(** The loop of the object branch over a mapping with distinct keys. *)
Lemma object_loop_ok (rec : value -> value -> M value) (p d : dict) :
  forall acc st out st',
    NoDup (keys acc ++ keys d) ->
    for_each (object_body rec (VDict p)) d acc st = (Ok out, st')
    <-> exists items, out = acc ++ items /\
                      threaded (field_step rec p) d st items st'.
Proof.
  induction d as [|[k x] d IH]; intros acc st out st' ND; simpl.
  - unfold ret. split.
    + intros E; inversion E; subst. exists []. rewrite app_nil_r.
      split; [reflexivity | constructor].
    + intros (ys & -> & T). inversion T; subst. now rewrite app_nil_r.
  - assert (Hk : ~ In k (keys acc)).
    { intros Hin. apply NoDup_remove_2 in ND. apply ND.
      apply in_or_app; auto. }
    assert (ND' : forall v, NoDup (keys (acc ++ [(k, v)]) ++ keys d)).
    { intros v. rewrite keys_app. simpl. rewrite <- app_assoc. exact ND. }
    unfold bind at 1. rewrite object_body_mapping. simpl fst; simpl snd.
    destruct (dict_get k p) as [sub|] eqn:Ep.
    + destruct (rec sub x st) as [[v|e] st1] eqn:E.
      * rewrite dict_set_fresh by exact Hk. rewrite (IH _ _ _ _ (ND' v)). split.
        -- intros (ys & -> & T). exists ((k, v) :: ys). rewrite <- app_assoc.
           split; [reflexivity|]. econstructor; [|exact T].
           split; [reflexivity|]. simpl. rewrite Ep. exact E.
        -- intros (ys & -> & T).
           inversion T as [|? ? [k' v'] ys' ? st2 ? [S1 S2] T']; subst.
           simpl in S1, S2. subst k'. rewrite Ep, E in S2. inversion S2; subst.
           exists ys'. rewrite <- app_assoc. split; [reflexivity | exact T'].
      * split; [discriminate|].
        intros (ys & _ & T).
        inversion T as [|? ? [k' v'] ys' ? st2 ? [S1 S2] T']; subst.
        simpl in S2. rewrite Ep, E in S2. discriminate.
    + rewrite dict_set_fresh by exact Hk. rewrite (IH _ _ _ _ (ND' x)). split.
      * intros (ys & -> & T). exists ((k, x) :: ys). rewrite <- app_assoc.
        split; [reflexivity|]. econstructor; [|exact T].
        split; [reflexivity|]. simpl. rewrite Ep. auto.
      * intros (ys & -> & T).
        inversion T as [|? ? [k' v'] ys' ? st2 ? [S1 S2] T']; subst.
        simpl in S1, S2. subst k'. rewrite Ep in S2. destruct S2; subst.
        exists ys'. rewrite <- app_assoc. split; [reflexivity | exact T'].
Qed.

Lemma object_loop_raise (rec : value -> value -> M value) (p d : dict) :
  forall acc st e st',
    for_each (object_body rec (VDict p)) d acc st = (Raise e, st') ->
    exists k x sub st1,
      In (k, x) d /\ dict_get k p = Some sub /\ rec sub x st1 = (Raise e, st').
Proof.
  induction d as [|[k x] d IH]; intros acc st e st'; simpl.
  - unfold ret. discriminate.
  - unfold bind at 1. rewrite object_body_mapping. simpl fst; simpl snd.
    destruct (dict_get k p) as [sub|] eqn:Ep.
    + destruct (rec sub x st) as [[v|e0] st1] eqn:E.
      * intros H. apply IH in H. destruct H as (k' & x' & sub' & st2 & Hin & H).
        exists k', x', sub', st2. auto.
      * intros H; inversion H; subst. exists k, x, sub, st. auto.
    + intros H. apply IH in H. destruct H as (k' & x' & sub' & st2 & Hin & H).
      exists k', x', sub', st2. auto.
Qed.

(** Fields the schema does not declare keep their value, and no key is
    added. *)
Lemma threaded_fields_frame (rec : value -> value -> M value) (p d out : dict)
    (st st' : state) :
  threaded (field_step rec p) d st out st' ->
  forall k, dict_get k p = None -> dict_get k out = dict_get k d.
Proof.
  induction 1 as [|[k0 x] xs [k1 y] ys st st1 st2 [Hk S] _ IH]; intros k Hp;
    [reflexivity|].
  simpl in *. subst k1. destruct (pystr_eqb k0 k) eqn:E; [|apply IH, Hp].
  apply pystr_eqb_eq in E. subst k0. rewrite Hp in S. destruct S; congruence.
Qed.


(** Settles the comparisons of a known type tag with the literals of the
    dispatch. *)
Ltac decide_tags :=
  repeat match goal with
    | |- context [py_eq_str (VStr (lit ?a)) (lit ?b)] =>
        let r := eval vm_compute in (py_eq_str (VStr (lit a)) (lit b)) in
        change (py_eq_str (VStr (lit a)) (lit b)) with r
    end;
  cbv iota.

(** Opens the traversal at a schema whose type tag is known. *)
Ltac open_walk data Htype :=
  destruct data; cbn [_mutate_recursive leaf_ok]; rewrite Htype; decide_tags.

(** *** Type tags *)

Lemma tag_cases (t : value) (tags : list string) :
  (exists s, In s tags /\ t = VStr (lit s)) \/
  (forall s, In s tags -> t <> VStr (lit s)).
Proof.
  induction tags as [|s tags [(s' & Hin & E) | Hno]].
  - right. intros s [].
  - left. exists s'. split; [right; exact Hin | exact E].
  - destruct (py_eq_str t (lit s)) eqn:E.
    + left. exists s. apply py_eq_str_true in E. split; [left; reflexivity | exact E].
    + right. intros s' [<- | Hin]; [|apply Hno, Hin].
      intros ->. simpl in E. rewrite pystr_eqb_refl in E. discriminate.
Qed.

(** *** What [leaf_ok] asks at each kind of node *)

Lemma leaf_ok_string (sch : dict) (data : value) :
  dict_get (lit "type") sch = Some (VStr (lit "string")) ->
  leaf_ok (VDict sch) data = string_ok data.
Proof. intros H; open_walk data H; reflexivity. Qed.

Lemma leaf_ok_integer (sch : dict) (data : value) :
  dict_get (lit "type") sch = Some (VStr (lit "integer")) ->
  leaf_ok (VDict sch) data = integer_ok data.
Proof. intros H; open_walk data H; reflexivity. Qed.

Lemma leaf_ok_number (sch : dict) (data : value) :
  dict_get (lit "type") sch = Some (VStr (lit "number")) ->
  leaf_ok (VDict sch) data = number_ok data.
Proof. intros H; open_walk data H; reflexivity. Qed.

Lemma leaf_ok_array (sch : dict) (items : value) (l : list value) :
  dict_get (lit "type") sch = Some (VStr (lit "array")) ->
  dict_get (lit "items") sch = Some items ->
  leaf_ok (VDict sch) (VList l) = forallb (leaf_ok items) l.
Proof. intros H Hi. cbn [leaf_ok]. rewrite H. decide_tags. rewrite Hi. reflexivity. Qed.

Lemma leaf_ok_object (sch : dict) (properties : value) (d : dict) :
  dict_get (lit "type") sch = Some (VStr (lit "object")) ->
  dict_get (lit "properties") sch = Some properties ->
  leaf_ok (VDict sch) (VDict d) =
  match properties with
  | VDict p =>
      forallb (fun item : pystr * value =>
                 match dict_get (fst item) p with
                 | Some sub => leaf_ok sub (snd item)
                 | None => true
                 end) d
  | _ => false
  end.
Proof. intros H Hp. cbn [leaf_ok]. rewrite H. decide_tags. rewrite Hp. reflexivity. Qed.

Lemma leaf_ok_untyped (v : value) : leaf_ok (VDict []) v = true.
Proof. destruct v; reflexivity. Qed.

(** *** Binary64: rounding a positive sum never gives zero

    Read off the specification of binary64 in [SpecFloat]: shifting a mantissa
    right by fewer places than it has digits leaves it positive. *)

Lemma round_aux_nonneg (m e : Z) (l : location) :
  sf_nonneg (binary_round_aux prec emax false m e l).
Proof.
  unfold binary_round_aux.
  destruct (shr_fexp prec emax m e l) as [mrs' e'].
  match goal with
  | |- context [shr_fexp prec emax ?a ?b ?c] =>
      destruct (shr_fexp prec emax a b c) as [mrs'' e'']
  end.
  destruct (shr_m mrs''); simpl; auto;
    destruct (_ <=? _); simpl; auto.
Qed.

Lemma round_nonneg (m : positive) (e : Z) :
  sf_nonneg (binary_round prec emax false m e).
Proof.
  unfold binary_round. destruct (shl_align m e _) as [mz ez].
  apply round_aux_nonneg.
Qed.

Lemma normalize_nonneg (z e : Z) :
  0 <= z -> sf_nonneg (binary_normalize prec emax z e false).
Proof.
  intros Hz. destruct z as [|p|p]; simpl; auto; [apply round_nonneg | lia].
Qed.

Lemma SF2Prim_nonneg (x : spec_float) :
  sf_nonneg x -> sf_nonneg (Prim2SF (SF2Prim x)).
Proof.
  destruct x as [[|]|[|]| |[|] m e]; simpl; try contradiction; intros _.
  - vm_compute. exact I.
  - vm_compute. exact I.
  - vm_compute. exact I.
  - rewrite Z_ldexp_spec, of_uint63_spec.
    set (n := Uint63Axioms.to_Z _).
    assert (B : 0 <= n) by apply Uint63.to_Z_bounded.
    pose proof (normalize_nonneg n 0 B) as N.
    destruct (binary_normalize prec emax n 0 false)
      as [[|]|[|]| |[|] m' e']; simpl in *; try contradiction; auto.
    apply round_nonneg.
Qed.

Lemma SFmul_nonneg (m : positive) (e : Z) (y : spec_float) :
  sf_nonneg y -> sf_nonneg (SF64mul (S754_finite false m e) y).
Proof.
  destruct y as [[|]|[|]| |[|] my ey]; simpl; try contradiction; auto.
  intros _. apply round_aux_nonneg.
Qed.

Lemma digits2_size (m : positive) : digits2_pos m = Pos.size m.
Proof. induction m; simpl; congruence. Qed.

Lemma digits_lower (m : positive) : 2 ^ (Z.pos (digits2_pos m) - 1) <= Z.pos m.
Proof.
  rewrite digits2_size. pose proof (Pos.size_le m) as H.
  apply Pos2Z.pos_le_pos in H. rewrite Pos2Z.inj_pow in H.
  replace (Z.pos (Pos.size m)) with (Z.succ (Z.pos (Pos.size m) - 1)) in H by lia.
  rewrite Z.pow_succ_r in H by lia. lia.
Qed.

Lemma digits_upper (m : positive) : Z.pos m < 2 ^ Z.pos (digits2_pos m).
Proof.
  rewrite digits2_size. pose proof (Pos.size_gt m) as H.
  apply Pos2Z.pos_lt_pos in H. rewrite Pos2Z.inj_pow in H. exact H.
Qed.

Lemma digits_mono (a b : positive) :
  Z.pos a <= Z.pos b -> Z.pos (digits2_pos a) <= Z.pos (digits2_pos b).
Proof.
  intros H. pose proof (digits_lower a) as L. pose proof (digits_upper b) as U.
  assert (P : 2 ^ (Z.pos (digits2_pos a) - 1) < 2 ^ Z.pos (digits2_pos b)) by lia.
  apply Z.pow_lt_mono_r_iff in P; lia.
Qed.

Lemma digits_shift (m d : positive) :
  digits2_pos (Pos.iter xO m d) = (digits2_pos m + d)%positive.
Proof.
  induction d as [|d IH] using Pos.peano_ind.
  - simpl. lia.
  - rewrite Pos.iter_succ. simpl. rewrite IH. lia.
Qed.

Lemma shr_1_half (mrs : shr_record) :
  0 <= shr_m mrs -> shr_m (shr_1 mrs) = shr_m mrs / 2.
Proof.
  destruct mrs as [m r s]. simpl. intros H.
  destruct m as [|[p|p|]|p]; simpl; try lia;
    Z.to_euclidean_division_equations; lia.
Qed.

Lemma iter_shr_m (p : positive) :
  forall mrs, 0 <= shr_m mrs ->
              shr_m (iter_pos shr_1 p mrs) = shr_m mrs / 2 ^ Z.pos p.
Proof.
  assert (P2 : forall q, 0 < 2 ^ Z.pos q) by (intros; apply Z.pow_pos_nonneg; lia).
  induction p as [p IH | p IH | ]; intros mrs H; simpl iter_pos.
  - rewrite IH, IH, shr_1_half; try assumption.
    + rewrite !Z.div_div by (pose proof (P2 p); lia).
      f_equal.
      replace (Z.pos p~1) with (1 + Z.pos p + Z.pos p) by lia.
      rewrite !Z.pow_add_r by lia. lia.
    + rewrite shr_1_half by assumption. apply Z.div_pos; lia.
    + rewrite IH, shr_1_half; try assumption.
      * apply Z.div_pos; [apply Z.div_pos; lia | apply P2].
      * rewrite shr_1_half by assumption. apply Z.div_pos; lia.
  - rewrite IH, IH; try assumption.
    + rewrite !Z.div_div by (pose proof (P2 p); lia).
      f_equal.
      replace (Z.pos p~0) with (Z.pos p + Z.pos p) by lia.
      rewrite !Z.pow_add_r by lia. lia.
    + rewrite IH by assumption. apply Z.div_pos; [lia | apply P2].
  - rewrite shr_1_half by assumption. reflexivity.
Qed.

Lemma shr_record_m (m : Z) (l : location) : shr_m (shr_record_of_loc m l) = m.
Proof. destruct l as [|[]]; reflexivity. Qed.

Lemma shr_positive (m : positive) (e n : Z) (l : location) :
  (n <= 0 \/ 2 ^ n <= Z.pos m) ->
  0 < shr_m (fst (shr (shr_record_of_loc (Z.pos m) l) e n)).
Proof.
  intros H. destruct n as [|p|p]; simpl; rewrite ?shr_record_m; try lia.
  rewrite iter_shr_m by (rewrite shr_record_m; lia). rewrite shr_record_m.
  apply Z.div_str_pos. split; [apply Z.pow_pos_nonneg; lia | lia].
Qed.

Lemma shr_exponent (mrs : shr_record) (e n : Z) :
  snd (shr mrs e n) = if 0 <? n then e + n else e.
Proof. destruct n; reflexivity. Qed.

Lemma pow_below_digits (m : positive) (n : Z) :
  n <= Z.pos (digits2_pos m) - 1 -> n <= 0 \/ 2 ^ n <= Z.pos m.
Proof.
  intros H. destruct (Z_le_gt_dec n 0) as [L|G]; [left; exact L | right].
  pose proof (digits_lower m) as D.
  assert (2 ^ n <= 2 ^ (Z.pos (digits2_pos m) - 1))
    by (apply Z.pow_le_mono_r; lia).
  lia.
Qed.

Lemma round_aux_nonzero (s : bool) (m : positive) (e : Z) :
  emin < Z.pos (digits2_pos m) + e ->
  sf_nonzero (binary_round_aux prec emax s (Z.pos m) e loc_Exact).
Proof.
  intros Hv. unfold binary_round_aux, shr_fexp.
  set (n1 := fexp prec emax (Zdigits2 (Z.pos m) + e) - e).
  assert (N1 : n1 <= Z.pos (digits2_pos m) - 1).
  { unfold n1, fexp, SpecFloat.emin, Zdigits2, prec, emax in *. lia. }
  pose proof (shr_positive m e n1 loc_Exact (pow_below_digits m n1 N1)) as P1.
  pose proof (shr_exponent (shr_record_of_loc (Z.pos m) loc_Exact) e n1) as X1.
  destruct (shr (shr_record_of_loc (Z.pos m) loc_Exact) e n1) as [mrs' e'].
  simpl in P1, X1.
  assert (E' : emin <= e').
  { subst e'. unfold n1, fexp, SpecFloat.emin, Zdigits2, prec, emax in *.
    destruct (0 <? _) eqn:C; [|apply Z.ltb_ge in C]; lia. }
  set (m2 := round_nearest_even (shr_m mrs') (loc_of_shr_record mrs')).
  assert (M2 : 0 < m2).
  { unfold m2, round_nearest_even.
    destruct (loc_of_shr_record mrs') as [|[]]; try lia.
    destruct (Z.even (shr_m mrs')); lia. }
  destruct m2 as [|q|q]; try lia.
  set (n2 := fexp prec emax (Zdigits2 (Z.pos q) + e') - e').
  assert (N2 : n2 <= Z.pos (digits2_pos q) - 1).
  { unfold n2, fexp, SpecFloat.emin, Zdigits2, prec, emax in *. lia. }
  pose proof (shr_positive q e' n2 loc_Exact (pow_below_digits q n2 N2)) as P2.
  destruct (shr (shr_record_of_loc (Z.pos q) loc_Exact) e' n2) as [mrs'' e''].
  simpl in P2. destruct (shr_m mrs''); try lia.
  destruct (_ <=? _); exact I.
Qed.

Lemma round_nonzero (s : bool) (m : positive) (e : Z) :
  emin < Z.pos (digits2_pos m) + e ->
  sf_nonzero (binary_round prec emax s m e).
Proof.
  intros Hv. unfold binary_round, shl_align.
  destruct (fexp prec emax (Z.pos (digits2_pos m) + e) - e) eqn:E;
    apply round_aux_nonzero; try exact Hv.
  assert (emin <= fexp prec emax (Z.pos (digits2_pos m) + e))
    by (unfold fexp; lia).
  lia.
Qed.

Lemma SFadd_nonzero (m1 : positive) (e1 : Z) (p : spec_float) :
  emin < Z.pos (digits2_pos m1) + e1 ->
  sf_nonneg p ->
  sf_nonzero (SF64add (S754_finite false m1 e1) p).
Proof.
  intros Hv Hp.
  destruct p as [[|]|[|]| |[|] mp ep]; simpl in Hp; try contradiction;
    try exact I.
  unfold SF64add, SFadd, cond_Zopp.
  set (ez := Z.min e1 ep).
  set (a := fst (shl_align m1 e1 ez)). set (b := fst (shl_align mp ep ez)).
  change (Z.pos a + Z.pos b) with (Z.pos (a + b)). unfold binary_normalize.
  apply round_nonzero.
  assert (A : Z.pos (digits2_pos m1) + e1 <= Z.pos (digits2_pos a) + ez).
  { unfold a, shl_align. destruct (ez - e1) eqn:E; simpl fst.
    - assert (ez = e1) by lia. lia.
    - assert (ez <= e1) by (unfold ez; lia). lia.
    - rewrite digits_shift. lia. }
  assert (B : Z.pos (digits2_pos a) <= Z.pos (digits2_pos (a + b)))
    by (apply digits_mono; lia).
  lia.
Qed.

Lemma SFeqb_zero (x : spec_float) :
  sf_nonzero x -> SFeqb x (S754_zero false) = false.
Proof.
  destruct x as [[|]|[|]| |[|] m e]; simpl; try contradiction; reflexivity.
Qed.

(** [1.1 + (2.0 - 1.1) * r] is not zero, whatever [random.random()] gave. *)
Lemma divisor_nonzero (k : Z) :
  0 <= k ->
  float_is_zero
    (1.1 + (2.0 - 1.1) * SF2Prim (binary_normalize prec emax k (-53) false))
  = false.
Proof.
  intros Hk. unfold float_is_zero. rewrite FloatAxioms.eqb_spec, FloatAxioms.add_spec, FloatAxioms.mul_spec.
  let v := eval vm_compute in (Prim2SF (2.0 - 1.1)) in
    change (Prim2SF (2.0 - 1.1)) with v.
  let v := eval vm_compute in (Prim2SF 1.1) in change (Prim2SF 1.1) with v.
  let v := eval vm_compute in (Prim2SF 0) in change (Prim2SF 0) with v.
  apply SFeqb_zero, SFadd_nonzero; [vm_compute; reflexivity|].
  apply SFmul_nonneg, SF2Prim_nonneg, normalize_nonneg, Hk.
Qed.
(** *** The numeric mutators on numbers *)

Lemma to_float_small (k : Z) :
  1 <= k <= 10 ->
  match to_float k with
  | Ok g => float_is_zero g = false
  | Raise _ => False
  end.
Proof.
  intros H.
  assert (C : k = 1 \/ k = 2 \/ k = 3 \/ k = 4 \/ k = 5 \/
              k = 6 \/ k = 7 \/ k = 8 \/ k = 9 \/ k = 10) by lia.
  repeat (destruct C as [-> | C]; [vm_compute; reflexivity|]).
  subst k. vm_compute; reflexivity.
Qed.

Lemma integer_ok_inv (data : value) :
  integer_ok data = true -> exists x, as_num data = Some x.
Proof. unfold integer_ok. destruct (as_num data); [eauto | discriminate]. Qed.

(** Arithmetic between a number and a small [int] never fails. *)
Lemma num_op_small (fi : Z -> Z -> outcome value)
    (ff : float -> float -> outcome value) (x : num) (k : Z) :
  1 <= k <= 10 ->
  (forall a, exists v, fi a k = Ok v) ->
  (forall a g, float_is_zero g = false -> exists v, ff a g = Ok v) ->
  exists v, num_op fi ff x (NInt k) = Ok v.
Proof.
  intros Hk Hi Hf. destruct x as [a | f]; simpl; [apply Hi|].
  pose proof (to_float_small k Hk) as T.
  destruct (to_float k) as [g|]; [apply Hf, T | contradiction].
Qed.

Lemma integer_strategies_return (data : value) :
  integer_ok data = true ->
  Forall (fun strategy : value -> M value =>
            forall st, exists v st', strategy data st = (Ok v, st'))
         integer_strategies.
Proof.
  intros Hok. destruct (integer_ok_inv data Hok) as (x & Ex).
  assert (Hseq : forall k, as_num (VInt k) = Some (NInt k)) by reflexivity.
  unfold integer_strategies.
  repeat constructor; intros st; try (unfold ret; eauto; fail); unfold bind.
  - destruct (randint_returns 1 10 st) as (k & st' & E & _ & Hk); [lia|].
    rewrite E. unfold lift.
    assert (exists v, py_add data (VInt k) = Ok v) as (v & ->); [|eauto].
    destruct data; try discriminate; unfold py_add; rewrite Ex;
      apply num_op_small; eauto.
  - destruct (randint_returns 1 10 st) as (k & st' & E & _ & Hk); [lia|].
    rewrite E. unfold lift.
    assert (exists v, py_sub data (VInt k) = Ok v) as (v & ->); [|eauto].
    unfold py_sub; rewrite Ex; apply num_op_small; eauto.
  - destruct (randint_returns 1 3 st) as (k & st' & E & _ & Hk); [lia|].
    rewrite E. unfold lift.
    assert (exists v, py_mul data (VInt k) = Ok v) as (v & ->); [|eauto].
    destruct data; try discriminate; unfold py_mul; rewrite Ex;
      simpl as_num; cbv iota; destruct x; apply num_op_small; eauto; lia.
  - destruct (randint_returns 1 3 st) as (g & st' & E & _ & Hg); [lia|].
    rewrite E. replace (g =? 0) with false by (symmetry; apply Z.eqb_neq; lia).
    change (negb false) with true. cbv beta iota.
    destruct (randint_returns 1 3 st') as (k & st'' & E' & _ & Hk); [lia|].
    rewrite E'. unfold lift.
    assert (exists v, py_floordiv data (VInt k) = Ok v) as (v & ->); [|eauto].
    unfold py_floordiv; rewrite Ex; simpl as_num; apply num_op_small;
      [lia | | ].
    + intros a. replace (k =? 0) with false by (symmetry; apply Z.eqb_neq; lia).
      eauto.
    + intros a g0 Hz. rewrite Hz. eauto.
Qed.

Lemma mutate_integer_returns (data : value) (st : state) :
  integer_ok data = true ->
  exists v st', _mutate_integer data st = (Ok v, st').
Proof.
  intros Hok. unfold _mutate_integer, bind.
  destruct (choice_returns (fun i => ret i) integer_strategies st)
    as (strategy & st' & E & _ & Hin); [discriminate|].
  rewrite E. unfold try_except.
  pose proof (integer_strategies_return data Hok) as F.
  rewrite Forall_forall in F. destruct (F strategy Hin st') as (v & st'' & ->).
  eauto.
Qed.

Lemma number_ok_inv (data : value) :
  number_ok data = true ->
  exists x f, as_num data = Some x /\ num_to_float x = Ok f.
Proof.
  unfold number_ok. destruct (as_num data) as [x|]; [|discriminate].
  destruct (num_to_float x) as [f|] eqn:E; [eauto | discriminate].
Qed.

Lemma num_op_float (fi : Z -> Z -> outcome value)
    (ff : float -> float -> outcome value) (x : num) (f u : float) :
  num_to_float x = Ok f -> num_op fi ff x (NFloat u) = ff f u.
Proof.
  intros H. destruct x as [a | g]; simpl in *.
  - rewrite H. reflexivity.
  - inversion H; reflexivity.
Qed.

(** Each strategy of [_mutate_number] returns or raises [ZeroDivisionError]
    on a number that fits binary64. *)
Lemma number_strategies_return (data : value) :
  number_ok data = true ->
  Forall (fun strategy : value -> M value =>
            forall st, exists st',
                (exists v, strategy data st = (Ok v, st')) \/
                strategy data st = (Raise ZeroDivisionError, st'))
         number_strategies.
Proof.
  intros Hok. destruct (number_ok_inv data Hok) as (x & f & Ex & Ef).
  unfold number_strategies.
  repeat constructor; intros st; try (unfold ret; eauto; fail); unfold bind.
  - destruct (uniform_returns 0.1 1.0 st) as (u & st' & E). rewrite E.
    exists st'. left. unfold lift.
    destruct data; try discriminate; unfold py_add; rewrite Ex; simpl as_num;
      cbv iota; rewrite (num_op_float _ _ _ _ _ Ef); eauto.
  - destruct (uniform_returns 0.1 1.0 st) as (u & st' & E). rewrite E.
    exists st'. left. unfold lift.
    unfold py_sub; rewrite Ex; simpl as_num;
      cbv iota; rewrite (num_op_float _ _ _ _ _ Ef); eauto.
  - destruct (uniform_returns 1.1 2.0 st) as (u & st' & E). rewrite E.
    exists st'. left. unfold lift.
    destruct data; try discriminate; unfold py_mul; rewrite Ex; simpl as_num;
      cbv iota; destruct x; rewrite (num_op_float _ _ _ _ _ Ef); eauto.
  - destruct (uniform_returns 1.1 2.0 st) as (g & st' & E). rewrite E.
    destruct (negb (float_is_zero g)); [|unfold ret; eauto].
    destruct (uniform_returns 1.1 2.0 st') as (u & st'' & E'). rewrite E'.
    exists st''. unfold lift, py_truediv. rewrite Ex, Ef.
    destruct (float_is_zero u); eauto.
Qed.

Lemma mutate_number_returns (data : value) (st : state) :
  number_ok data = true ->
  exists v st', _mutate_number data st = (Ok v, st').
Proof.
  intros Hok. unfold _mutate_number, bind.
  destruct (choice_returns (fun f => ret f) number_strategies st)
    as (strategy & st' & E & _ & Hin); [discriminate|].
  rewrite E. unfold try_except.
  pose proof (number_strategies_return data Hok) as F.
  rewrite Forall_forall in F.
  destruct (F strategy Hin st') as (st'' & [(v & ->) | ->]); simpl;
    unfold ret; eauto.
Qed.

(** *** Division by zero and the recovery branches *)

Lemma uniform_divisor_nonzero (st : state) :
  exists u st', uniform 1.1 2.0 st = (Ok u, st') /\ float_is_zero u = false.
Proof.
  unfold uniform, random, bind.
  destruct (randbelow_returns (2 ^ 53) st) as (k & st' & E & _).
  rewrite E. unfold ret. eexists; eexists; split; [reflexivity|].
  apply divisor_nonzero. lia.
Qed.

Lemma to_float_raise (z : Z) (e : exn) :
  to_float z = Raise e -> e = OverflowError.
Proof.
  unfold to_float. destruct (binary_normalize prec emax z 0 false);
    intros H; inversion H; reflexivity.
Qed.

Lemma num_op_raise (fi : Z -> Z -> outcome value)
    (ff : float -> float -> outcome value) (x y : num) (e : exn) :
  (forall a b, fi a b <> Raise ZeroDivisionError) ->
  (forall a b, ff a b <> Raise ZeroDivisionError) ->
  num_op fi ff x y = Raise e -> e <> ZeroDivisionError.
Proof.
  intros Hi Hf H ->. unfold num_op, num_to_float in H.
  destruct x as [a|f], y as [b|g];
    repeat match type of H with
      | context [to_float ?z] =>
          let E := fresh "E" in
          destruct (to_float z) eqn:E;
          [|apply to_float_raise in E; inversion H; congruence]
      end;
    solve [eapply Hi; exact H | eapply Hf; exact H].
Qed.

(** No strategy of [_mutate_number] raises [ZeroDivisionError], on any
    input: the guard and the divisor drawn by [random.uniform(1.1, 2.0)] are
    never zero. *)
Lemma number_strategies_no_zero_division (data : value) :
  Forall (fun strategy : value -> M value =>
            forall st e st', strategy data st = (Raise e, st') ->
                             e <> ZeroDivisionError)
         number_strategies.
Proof.
  assert (A : forall a b e, py_add a b = Raise e -> e <> ZeroDivisionError).
  { intros a b e H. unfold py_add, as_num in H.
    destruct a, b; cbv beta iota in H; try (inversion H; discriminate);
      (eapply num_op_raise; [| |exact H]; intros; discriminate). }
  assert (S : forall a b e, py_sub a b = Raise e -> e <> ZeroDivisionError).
  { intros a b e H. unfold py_sub in H.
    destruct (as_num a), (as_num b); try (inversion H; discriminate).
    eapply num_op_raise; [| |exact H]; intros; discriminate. }
  assert (P : forall a u e, py_mul a (VFloat u) = Raise e ->
                            e <> ZeroDivisionError).
  { intros a u e H. unfold py_mul, as_num in H.
    destruct a; cbv beta iota in H; try (inversion H; discriminate);
      (eapply num_op_raise; [| |exact H]; intros; discriminate). }
  unfold number_strategies.
  repeat constructor; intros st e st'; try (unfold ret; discriminate);
    unfold bind.
  - destruct (uniform_returns 0.1 1.0 st) as (u & st1 & ->).
    unfold lift. intros H; inversion H. eapply A; eassumption.
  - destruct (uniform_returns 0.1 1.0 st) as (u & st1 & ->).
    unfold lift. intros H; inversion H. eapply S; eassumption.
  - destruct (uniform_returns 1.1 2.0 st) as (u & st1 & ->).
    unfold lift. intros H; inversion H. eapply P; eassumption.
  - destruct (uniform_divisor_nonzero st) as (g & st1 & -> & Hg).
    rewrite Hg. change (negb false) with true. cbv beta iota.
    destruct (uniform_divisor_nonzero st1) as (u & st2 & -> & Hu).
    unfold lift, py_truediv. rewrite Hu.
    destruct (as_num data) as [x|]; [|intros H; inversion H; discriminate].
    destruct x as [z|f]; simpl; [|discriminate].
    destruct (to_float z) eqn:E; [discriminate|].
    apply to_float_raise in E. intros H; inversion H; congruence.
Qed.

(** The handler [except ZeroDivisionError] of [_mutate_number] is never
    entered. *)
Lemma mutate_number_without_handler (data : value) (st : state) :
  _mutate_number data st =
  (strategy <- choice (fun f => ret f) number_strategies ;; strategy data) st.
Proof.
  unfold _mutate_number, bind.
  destruct (choice_returns (fun f => ret f) number_strategies st)
    as (strategy & st' & E & _ & Hin); [discriminate|].
  rewrite E. unfold try_except.
  pose proof (number_strategies_no_zero_division data) as F.
  rewrite Forall_forall in F. specialize (F strategy Hin st').
  destruct (strategy data st') as [[v|e] st'']; [reflexivity|].
  specialize (F e st'' eq_refl). destruct e; try reflexivity. contradiction.
Qed.

(** A strategy of [_mutate_integer] can only raise [TypeError]: the guard
    and the divisor drawn by [random.randint(1, 3)] are never zero, and
    nothing overflows. *)
Lemma integer_strategies_raise (data : value) :
  Forall (fun strategy : value -> M value =>
            forall st e st', strategy data st = (Raise e, st') ->
                             e = TypeError)
         integer_strategies.
Proof.
  assert (N : forall (op : value -> value -> outcome value) k e,
             (integer_ok data = true -> exists v, op data (VInt k) = Ok v) ->
             (integer_ok data = false ->
              op data (VInt k) = Raise TypeError \/
              exists v, op data (VInt k) = Ok v) ->
             op data (VInt k) = Raise e -> e = TypeError).
  { intros op k e Hk Hn H. destruct (integer_ok data) eqn:O.
    - destruct (Hk eq_refl) as (v & Ev). congruence.
    - destruct (Hn eq_refl) as [Ev | (v & Ev)]; congruence. }
  pose proof (integer_strategies_return data) as R.
  unfold integer_strategies in *.
  repeat constructor; intros st e st'; try (unfold ret; discriminate);
    unfold bind.
  - destruct (randint_returns 1 10 st) as (k & st1 & -> & _ & Hk); [lia|].
    unfold lift. intros H; inversion H; subst. eapply (N py_add k); eauto.
    + intros O. destruct (integer_ok_inv data O) as (x & Ex).
      destruct data; try discriminate; unfold py_add; rewrite Ex;
        apply num_op_small; eauto.
    + intros O. left. destruct data; try discriminate; reflexivity.
  - destruct (randint_returns 1 10 st) as (k & st1 & -> & _ & Hk); [lia|].
    unfold lift. intros H; inversion H; subst. eapply (N py_sub k); eauto.
    + intros O. destruct (integer_ok_inv data O) as (x & Ex).
      unfold py_sub; rewrite Ex; apply num_op_small; eauto.
    + intros O. left. destruct data; try discriminate; reflexivity.
  - destruct (randint_returns 1 3 st) as (k & st1 & -> & _ & Hk); [lia|].
    unfold lift. intros H; inversion H; subst. eapply (N py_mul k); eauto.
    + intros O. destruct (integer_ok_inv data O) as (x & Ex).
      destruct data; try discriminate; unfold py_mul; rewrite Ex;
        simpl as_num; cbv iota; destruct x; apply num_op_small; eauto; lia.
    + intros O. destruct data; try discriminate; simpl; eauto.
  - destruct (randint_returns 1 3 st) as (g & st1 & -> & _ & Hg); [lia|].
    replace (g =? 0) with false by (symmetry; apply Z.eqb_neq; lia).
    change (negb false) with true. cbv beta iota.
    destruct (randint_returns 1 3 st1) as (k & st2 & -> & _ & Hk); [lia|].
    unfold lift. intros H; inversion H; subst. eapply (N py_floordiv k); eauto.
    + intros O. destruct (integer_ok_inv data O) as (x & Ex).
      unfold py_floordiv; rewrite Ex; simpl as_num; apply num_op_small;
        [lia | | ].
      * intros a. replace (k =? 0) with false by (symmetry; apply Z.eqb_neq; lia).
        eauto.
      * intros a g0 Hz. rewrite Hz. eauto.
    + intros O. left. destruct data; try discriminate; reflexivity.
Qed.

(** The handler [except OverflowError] of [_mutate_integer] is never
    entered. *)
Lemma mutate_integer_without_handler (data : value) (st : state) :
  _mutate_integer data st =
  (strategy <- choice (fun i => ret i) integer_strategies ;; strategy data) st.
Proof.
  unfold _mutate_integer, bind.
  destruct (choice_returns (fun i => ret i) integer_strategies st)
    as (strategy & st' & E & _ & Hin); [discriminate|].
  rewrite E. unfold try_except.
  pose proof (integer_strategies_raise data) as F.
  rewrite Forall_forall in F. specialize (F strategy Hin st').
  destruct (strategy data st') as [[v|e] st'']; [reflexivity|].
  rewrite (F e st'' eq_refl). reflexivity.
Qed.

(** ** Properties of the engine *)

Section Properties.

Variables str_upper str_lower : pystr -> pystr.

Local Notation mutate_recursive := (_mutate_recursive str_upper str_lower).
Local Notation mutate_string := (_mutate_string str_upper str_lower).
Local Notation strategies_of_string := (string_strategies str_upper str_lower).

Lemma walk_string (sch : dict) (data : value) :
  dict_get (lit "type") sch = Some (VStr (lit "string")) ->
  mutate_recursive (VDict sch) data = mutate_string data.
Proof. intros H; open_walk data H; reflexivity. Qed.

Lemma walk_integer (sch : dict) (data : value) :
  dict_get (lit "type") sch = Some (VStr (lit "integer")) ->
  mutate_recursive (VDict sch) data = _mutate_integer data.
Proof. intros H; open_walk data H; reflexivity. Qed.

Lemma walk_number (sch : dict) (data : value) :
  dict_get (lit "type") sch = Some (VStr (lit "number")) ->
  mutate_recursive (VDict sch) data = _mutate_number data.
Proof. intros H; open_walk data H; reflexivity. Qed.

Lemma walk_boolean (sch : dict) (data : value) :
  dict_get (lit "type") sch = Some (VStr (lit "boolean")) ->
  mutate_recursive (VDict sch) data = _mutate_boolean.
Proof. intros H; open_walk data H; reflexivity. Qed.

Lemma walk_null (sch : dict) (data : value) :
  dict_get (lit "type") sch = Some (VStr (lit "null")) ->
  mutate_recursive (VDict sch) data = ret VNone.
Proof. intros H; open_walk data H; reflexivity. Qed.

Lemma walk_array (sch : dict) (data : value) :
  dict_get (lit "type") sch = Some (VStr (lit "array")) ->
  mutate_recursive (VDict sch) data =
  match dict_get (lit "items") sch with
  | Some items =>
      match data with
      | VList l =>
          mutated_array <-
            for_each (fun acc item =>
                        v <- mutate_recursive items item ;; ret (acc ++ [v]))
                     l [] ;;
          ret (VList mutated_array)
      | _ => ret (VList [])
      end
  | None => ret (VList [])
  end.
Proof.
  intros H; open_walk data H;
    destruct (dict_get (lit "items") sch); reflexivity.
Qed.

Lemma walk_object (sch : dict) (data : value) :
  dict_get (lit "type") sch = Some (VStr (lit "object")) ->
  mutate_recursive (VDict sch) data =
  match data with
  | VDict d =>
      match dict_get (lit "properties") sch with
      | Some properties =>
          mutated_object <-
            for_each (object_body mutate_recursive properties) d [] ;;
          ret (VDict mutated_object)
      | None => ret VNone
      end
  | _ => ret (VDict [])
  end.
Proof. intros H; open_walk data H; reflexivity. Qed.

Lemma walk_unsupported (sch : dict) (t data : value) :
  dict_get (lit "type") sch = Some t ->
  (forall s, In s supported_types -> t <> VStr (lit s)) ->
  mutate_recursive (VDict sch) data = (warn t ;;; ret data).
Proof.
  intros H Hno.
  assert (T : forall s, In s supported_types -> py_eq_str t (lit s) = false)
    by (intros s Hs; apply py_eq_str_false, Hno, Hs).
  destruct data; cbn [_mutate_recursive]; rewrite H;
    rewrite !T by (simpl; tauto); reflexivity.
Qed.

Lemma walk_untyped_schema (schema data : value) :
  match schema with
  | VDict sch => dict_get (lit "type") sch = None
  | _ => True
  end ->
  mutate_recursive schema data =
  match data with
  | VDict d => walk_untyped mutate_recursive d
  | _ => ret data
  end.
Proof.
  intros H. destruct schema; destruct data; cbn [_mutate_recursive];
    try rewrite H; reflexivity.
Qed.

Lemma unsupported_type_walk (sch : dict) (t data : value) (st : state) :
  dict_get (lit "type") sch = Some t ->
  (forall s, In s supported_types -> t <> VStr (lit s)) ->
  mutate_recursive (VDict sch) data st =
  (Ok data, mkState (tape st) (warnings st ++ [t])).
Proof.
  intros Ht Hno. rewrite (walk_unsupported sch t _ Ht Hno). reflexivity.
Qed.

(** *** The scalar mutators *)

Lemma random_letters_returns (n : Z) (st : state) :
  exists s st', random_letters n st = (Ok s, st').
Proof.
  unfold random_letters. apply for_each_returns.
  apply Forall_forall. intros x _ acc st0. unfold bind.
  destruct (choice_returns 0%N alphabet st0) as (c & st1 & E & _).
  { discriminate. }
  rewrite E. unfold ret. eauto.
Qed.

Lemma string_strategies_closed (s : pystr) :
  Forall (fun strategy : value -> M value =>
            forall st, exists s' st', strategy (VStr s) st = (Ok (VStr s'), st'))
         strategies_of_string.
Proof.
  unfold string_strategies.
  repeat constructor; intros st; unfold lift; simpl; eauto.
  - unfold bind. destruct (randint_returns 1 5 st) as (k & st' & E & _); [lia|].
    rewrite E. simpl. eauto.
  - unfold bind. destruct (randint_returns 5 15 st) as (k & st' & E & _); [lia|].
    rewrite E. destruct (random_letters_returns k st') as (t & st'' & E').
    rewrite E'. unfold ret. eauto.
Qed.

Lemma mutate_string_closed (s : pystr) (st : state) :
  exists s' st', mutate_string (VStr s) st = (Ok (VStr s'), st').
Proof.
  unfold _mutate_string, bind.
  destruct (choice_returns (fun s => ret s) strategies_of_string st)
    as (strategy & st' & E & _ & Hin); [discriminate|].
  rewrite E.
  pose proof (string_strategies_closed s) as F.
  rewrite Forall_forall in F. apply (F strategy Hin).
Qed.

(** C10. String closure: on an input that is a [str], each of the eight
    strategies of [_mutate_string] returns a [str] whatever the draws are;
    so does [_mutate_string] itself, and so does the traversal at a
    ["string"] node. *)
Theorem string_closure (s : pystr) :
  List.length strategies_of_string = 8%nat /\
  Forall (fun strategy : value -> M value =>
            forall st, exists s' st', strategy (VStr s) st = (Ok (VStr s'), st'))
         strategies_of_string /\
  (forall st, exists s' st', mutate_string (VStr s) st = (Ok (VStr s'), st')) /\
  (forall sch st,
      dict_get (lit "type") sch = Some (VStr (lit "string")) ->
      exists s' st', mutate_recursive (VDict sch) (VStr s) st = (Ok (VStr s'), st')).
Proof.
  split; [reflexivity|]. split; [apply string_strategies_closed|].
  split; [apply mutate_string_closed|].
  intros sch st H. rewrite (walk_string sch _ H). apply mutate_string_closed.
Qed.

(** C9. Boolean noninterference: at a ["boolean"] node the traversal returns
    [True] or [False], and the result (with the state it leaves) is the same
    for any two sample values run from the same state. *)
Theorem boolean_noninterference (sch : dict) (d1 d2 : value) (st : state) :
  dict_get (lit "type") sch = Some (VStr (lit "boolean")) ->
  mutate_recursive (VDict sch) d1 st = mutate_recursive (VDict sch) d2 st /\
  exists b st', mutate_recursive (VDict sch) d1 st = (Ok (VBool b), st').
Proof.
  intros H. rewrite !(walk_boolean sch _ H). split; [reflexivity|].
  unfold _mutate_boolean, bind.
  destruct (choice_returns true [true; false] st) as (b & st' & E & _);
    [discriminate|].
  rewrite E. unfold ret. eauto.
Qed.

(** C6. Array without items: at an ["array"] node that has no ["items"] key
    the traversal returns the empty list for every sample value, drawing and
    logging nothing. *)
Theorem array_without_items (sch : dict) (data : value) (st : state) :
  dict_get (lit "type") sch = Some (VStr (lit "array")) ->
  dict_get (lit "items") sch = None ->
  mutate_recursive (VDict sch) data st = (Ok (VList []), st).
Proof.
  intros Ht Hi. rewrite (walk_array sch _ Ht), Hi. reflexivity.
Qed.

(** C7. Unsupported type: at a node whose ["type"] value is none of string,
    integer, number, boolean, null, array, object, the traversal returns the
    sample value unchanged; nothing is raised and nothing is drawn, one
    warning carrying the tag is logged. *)
Theorem unsupported_type_passthrough (sch : dict) (t data : value) (st : state) :
  dict_get (lit "type") sch = Some t ->
  (forall s, In s supported_types -> t <> VStr (lit s)) ->
  mutate_recursive (VDict sch) data st =
  (Ok data, mkState (tape st) (warnings st ++ [t])).
Proof.
  intros Ht Hno. rewrite (walk_unsupported sch t _ Ht Hno). reflexivity.
Qed.

(** *** The traversal returns on compatible leaves *)

Local Notation returns_at data :=
  (forall schema st, leaf_ok schema data = true ->
                     exists v st', mutate_recursive schema data st = (Ok v, st')).

Lemma walk_untyped_returns (d : dict) :
  Forall (fun item : pystr * value => returns_at (snd item)) d ->
  forall st, exists v st', walk_untyped mutate_recursive d st = (Ok v, st').
Proof.
  intros IH st. unfold walk_untyped, bind at 1.
  assert (L : exists r st',
             for_each (fun acc (item : pystr * value) =>
                         v <- mutate_recursive (VDict []) (snd item) ;;
                         ret (dict_set (fst item) v acc)) d [] st = (Ok r, st')).
  { apply for_each_returns. eapply Forall_impl; [|exact IH].
    intros item H acc st0. unfold bind.
    destruct (H (VDict []) st0 (leaf_ok_untyped _)) as (v & st1 & ->).
    unfold ret. eauto. }
  destruct L as (r & st' & ->). unfold ret. eauto.
Qed.

Lemma walk_returns_step (data : value) :
  match data with
  | VList l => Forall (fun x => returns_at x) l
  | VDict d => Forall (fun item : pystr * value => returns_at (snd item)) d
  | _ => True
  end ->
  returns_at data.
Proof.
  intros IH schema st Hok.
  assert (U : match schema with
              | VDict sch => dict_get (lit "type") sch = None
              | _ => True
              end ->
              exists v st', mutate_recursive schema data st = (Ok v, st')).
  { intros Hs. rewrite (walk_untyped_schema schema data Hs).
    destruct data; try (unfold ret; eauto; fail).
    apply walk_untyped_returns, IH. }
  destruct schema as [ | | | | | | sch]; try (apply U; exact I).
  destruct (dict_get (lit "type") sch) as [t|] eqn:Ht; [|apply U; reflexivity].
  clear U.
  destruct (tag_cases t supported_types) as [(s & Hin & ->) | Hno].
  - simpl in Hin.
    destruct Hin as [<- | [<- | [<- | [<- | [<- | [<- | [<- | []]]]]]]].
    + rewrite (leaf_ok_string sch _ Ht) in Hok. rewrite (walk_string sch _ Ht).
      destruct data; try discriminate.
      destruct (mutate_string_closed s st) as (s' & st' & E). eauto.
    + rewrite (leaf_ok_integer sch _ Ht) in Hok. rewrite (walk_integer sch _ Ht).
      apply mutate_integer_returns, Hok.
    + rewrite (leaf_ok_number sch _ Ht) in Hok. rewrite (walk_number sch _ Ht).
      apply mutate_number_returns, Hok.
    + rewrite (walk_boolean sch _ Ht). unfold _mutate_boolean, bind.
      destruct (choice_returns true [true; false] st) as (b & st' & E & _);
        [discriminate|].
      rewrite E. unfold ret. eauto.
    + rewrite (walk_null sch _ Ht). unfold ret. eauto.
    + rewrite (walk_array sch _ Ht).
      destruct (dict_get (lit "items") sch) as [items|] eqn:Hi;
        [|unfold ret; eauto].
      destruct data; try (unfold ret; eauto; fail).
      rewrite (leaf_ok_array sch items l Ht Hi) in Hok.
      rewrite forallb_forall in Hok. rewrite Forall_forall in IH.
      unfold bind at 1.
      assert (L : exists r st',
                 for_each (fun acc item =>
                             v <- mutate_recursive items item ;;
                             ret (acc ++ [v])) l [] st = (Ok r, st')).
      { apply for_each_returns, Forall_forall. intros x Hx acc st0.
        unfold bind. destruct (IH x Hx items st0 (Hok x Hx)) as (v & st1 & ->).
        unfold ret. eauto. }
      destruct L as (r & st' & ->). unfold ret. eauto.
    + rewrite (walk_object sch _ Ht).
      destruct data; try (unfold ret; eauto; fail).
      destruct (dict_get (lit "properties") sch) as [properties|] eqn:Hp;
        [|unfold ret; eauto].
      rewrite (leaf_ok_object sch properties d Ht Hp) in Hok.
      destruct properties as [ | | | | | | p]; try discriminate.
      rewrite forallb_forall in Hok. rewrite Forall_forall in IH.
      unfold bind at 1.
      assert (L : exists r st',
                 for_each (object_body mutate_recursive (VDict p)) d [] st
                 = (Ok r, st')).
      { apply for_each_returns, Forall_forall. intros item Hitem acc st0.
        rewrite object_body_mapping. specialize (Hok item Hitem).
        destruct (dict_get (fst item) p) as [sub|]; [|eauto].
        destruct (IH item Hitem sub st0 Hok) as (v & st1 & ->). eauto. }
      destruct L as (r & st' & ->). unfold ret. eauto.
  - rewrite (walk_unsupported sch t _ Ht Hno). unfold bind, warn, ret. eauto.
Qed.

Lemma walk_returns (data : value) : returns_at data.
Proof.
  induction data using value_nested_ind; apply walk_returns_step;
    solve [exact I | assumption].
Qed.

(** C1 (amended). Totality on compatible leaves: when every value the walk
    meets under a ["string"] node is a [str], under an ["integer"] node a
    number, under a ["number"] node a number that fits binary64, and the
    ["properties"] consulted are mappings, [_mutate_recursive] returns a value
    and raises nothing.  A sample whose container shape disagrees with the
    schema never raises either: a non-mapping under ["object"] gives the empty
    mapping, a non-list under ["array"] the empty list, a non-mapping under a
    schema without type tag the sample itself. *)
Theorem traversal_total_on_compatible_leaves (schema data : value) (st : state) :
  (leaf_ok schema data = true ->
   exists v st', mutate_recursive schema data st = (Ok v, st')) /\
  (forall sch,
      schema = VDict sch ->
      dict_get (lit "type") sch = Some (VStr (lit "object")) ->
      (forall d, data <> VDict d) ->
      mutate_recursive schema data st = (Ok (VDict []), st)) /\
  (forall sch,
      schema = VDict sch ->
      dict_get (lit "type") sch = Some (VStr (lit "array")) ->
      (forall l, data <> VList l) ->
      mutate_recursive schema data st = (Ok (VList []), st)) /\
  (match schema with
   | VDict sch => dict_get (lit "type") sch = None
   | _ => True
   end ->
   (forall d, data <> VDict d) ->
   mutate_recursive schema data st = (Ok data, st)).
Proof.
  split; [apply walk_returns|]. split; [|split].
  - intros sch -> Ht Hd. rewrite (walk_object sch _ Ht).
    destruct data; try reflexivity. exfalso; eapply Hd; reflexivity.
  - intros sch -> Ht Hl. rewrite (walk_array sch _ Ht).
    destruct (dict_get (lit "items") sch); [|reflexivity].
    destruct data; try reflexivity. exfalso; eapply Hl; reflexivity.
  - intros Hs Hd. rewrite (walk_untyped_schema schema data Hs).
    destruct data; try reflexivity. exfalso; eapply Hd; reflexivity.
Qed.

(** C4 (amended). Arrays with an item schema: at an ["array"] node that
    declares ["items"], a list sample is mutated element by element, in order.
    A value returned is a list of the same length whose element [i] is what
    [_mutate_recursive(items, value[i])] returned in the state its
    predecessors left; the call returns whenever all those element calls
    return; and an exception that leaves the call was raised by one of
    them. *)
Theorem array_items_elementwise (sch : dict) (items : value) (l : list value)
    (st : state) :
  dict_get (lit "type") sch = Some (VStr (lit "array")) ->
  dict_get (lit "items") sch = Some items ->
  (forall out st',
      mutate_recursive (VDict sch) (VList l) st = (Ok out, st') ->
      exists vs, out = VList vs /\ List.length vs = List.length l /\
                 threaded (returns (mutate_recursive items)) l st vs st') /\
  (forall vs st',
      threaded (returns (mutate_recursive items)) l st vs st' ->
      mutate_recursive (VDict sch) (VList l) st = (Ok (VList vs), st')) /\
  (forall e st',
      mutate_recursive (VDict sch) (VList l) st = (Raise e, st') ->
      exists x st1, In x l /\ mutate_recursive items x st1 = (Raise e, st')).
Proof.
  intros Ht Hi. rewrite (walk_array sch _ Ht), Hi. unfold bind at 1 3 5.
  set (loop := for_each (fun acc item =>
                           v <- mutate_recursive items item ;; ret (acc ++ [v]))
                        l [] st).
  split; [|split].
  - intros out st' H. destruct loop as [[r|e] st1] eqn:E; [|discriminate].
    unfold ret in H. inversion H; subst. apply append_loop_ok in E.
    destruct E as (ys & -> & T). exists ys. simpl.
    split; [reflexivity|]. split; [eapply threaded_length; exact T | exact T].
  - intros vs st' T.
    assert (E : loop = (Ok ([] ++ vs), st')) by (apply append_loop_ok; eauto).
    rewrite E. reflexivity.
  - intros e st' H. destruct loop as [[r|e0] st1] eqn:E; [discriminate|].
    inversion H; subst. eapply append_loop_raise. exact E.
Qed.

(** C3 (amended). Cardinality: for a non-negative [n], a sequence returned by
    [mutate(n)] has exactly [n] elements, each the result of one traversal of
    the sample, in order; [n = 0] returns the empty sequence; [mutate(n)]
    returns whenever the leaves are compatible; and an exception that leaves
    [mutate] was raised by a traversal of the sample. *)
Theorem mutate_cardinality (schema sample : value) (n : Z) (st : state) :
  0 <= n ->
  (forall out st',
      mutate str_upper str_lower schema sample n st = (Ok out, st') ->
      Z.of_nat (List.length out) = n /\
      threaded (returns (fun _ : nat => mutate_recursive schema sample))
               (seq 0 (Z.to_nat n)) st out st') /\
  mutate str_upper str_lower schema sample 0 st = (Ok [], st) /\
  (leaf_ok schema sample = true ->
   exists out st',
     mutate str_upper str_lower schema sample n st = (Ok out, st') /\
     Z.of_nat (List.length out) = n) /\
  (forall e st',
      mutate str_upper str_lower schema sample n st = (Raise e, st') ->
      exists st1, mutate_recursive schema sample st1 = (Raise e, st')).
Proof.
  intros Hn. unfold mutate.
  assert (Len : forall out st',
             for_each (fun acc (_ : nat) =>
                         v <- mutate_recursive schema sample ;; ret (acc ++ [v]))
                      (seq 0 (Z.to_nat n)) [] st = (Ok out, st') ->
             Z.of_nat (List.length out) = n /\
             threaded (returns (fun _ : nat => mutate_recursive schema sample))
                      (seq 0 (Z.to_nat n)) st out st').
  { intros out st' H.
    apply (append_loop_ok (fun _ : nat => mutate_recursive schema sample)) in H.
    destruct H as (ys & -> & T). simpl. split; [|exact T].
    rewrite (threaded_length _ _ _ _ _ T), length_seq. lia. }
  split; [exact Len|]. split; [reflexivity|]. split.
  - intros Hok.
    destruct (for_each_returns
                (fun acc (_ : nat) =>
                   v <- mutate_recursive schema sample ;; ret (acc ++ [v]))
                (seq 0 (Z.to_nat n))) with (acc := @nil value) (st := st)
      as (out & st' & E).
    { apply Forall_forall. intros i _ acc st0. unfold bind.
      destruct (walk_returns sample schema st0 Hok) as (v & st1 & ->).
      unfold ret. eauto. }
    exists out, st'. split; [exact E | apply (Len out st' E)].
  - intros e st' H.
    apply (append_loop_raise (fun _ : nat => mutate_recursive schema sample)) in H.
    destruct H as (i & st1 & _ & H). eauto.
Qed.

(** C2 (amended). Objects: at an ["object"] node whose ["properties"] is a
    mapping, a mapping sample (distinct keys) is walked field by field, in
    order.  A value returned is a mapping with the keys of the sample, where a
    key that ["properties"] declares is bound to what the recursive mutation
    of its value under that sub-schema returned, and any other key to its
    original value; the call returns whenever those recursive mutations
    return; and an exception that leaves the call was raised by the mutation
    of a declared field. *)
Theorem object_fields (sch p d : dict) (st : state) :
  dict_get (lit "type") sch = Some (VStr (lit "object")) ->
  dict_get (lit "properties") sch = Some (VDict p) ->
  NoDup (keys d) ->
  (forall out st',
      mutate_recursive (VDict sch) (VDict d) st = (Ok out, st') ->
      exists items, out = VDict items /\ keys items = keys d /\
                    threaded (field_step mutate_recursive p) d st items st') /\
  (forall items st',
      threaded (field_step mutate_recursive p) d st items st' ->
      mutate_recursive (VDict sch) (VDict d) st = (Ok (VDict items), st')) /\
  (forall e st',
      mutate_recursive (VDict sch) (VDict d) st = (Raise e, st') ->
      exists k x sub st1,
        In (k, x) d /\ dict_get k p = Some sub /\
        mutate_recursive sub x st1 = (Raise e, st')).
Proof.
  intros Ht Hp ND. rewrite (walk_object sch _ Ht), Hp. unfold bind at 1 2 3.
  set (loop := for_each (object_body mutate_recursive (VDict p)) d [] st).
  split; [|split].
  - intros out st' H. destruct loop as [[r|e] st1] eqn:E; [|discriminate].
    unfold ret in H. inversion H; subst.
    apply (object_loop_ok mutate_recursive p d [] st) in E; [|exact ND].
    destruct E as (items & -> & T). exists items. simpl.
    split; [reflexivity|]. split; [eapply threaded_fields_keys; exact T | exact T].
  - intros items st' T.
    assert (E : loop = (Ok ([] ++ items), st'))
      by (apply (object_loop_ok mutate_recursive p d [] st); eauto).
    rewrite E. reflexivity.
  - intros e st' H. destruct loop as [[r|e0] st1] eqn:E; [discriminate|].
    inversion H; subst. eapply object_loop_raise. exact E.
Qed.

(** C5. Unknown-field passthrough and no synthesis: at an ["object"] node
    whose ["properties"] is a mapping, in every output of the traversal of a
    mapping sample (distinct keys) each key of the sample that ["properties"]
    does not declare is bound to exactly its original value, and no key that
    ["properties"] declares but the sample lacks appears.  When there is no
    output, the exception was raised by the mutation of a declared field. *)
Theorem unknown_fields_pass_through (sch p d : dict) (st : state)
    (r : outcome value) (st' : state) :
  dict_get (lit "type") sch = Some (VStr (lit "object")) ->
  dict_get (lit "properties") sch = Some (VDict p) ->
  NoDup (keys d) ->
  mutate_recursive (VDict sch) (VDict d) st = (r, st') ->
  match r with
  | Ok out =>
      exists items,
        out = VDict items /\
        (forall k v, dict_get k d = Some v -> dict_get k p = None ->
                     dict_get k items = Some v) /\
        (forall k, dict_get k p <> None -> dict_get k d = None ->
                   dict_get k items = None)
  | Raise e =>
      exists k x sub st1,
        In (k, x) d /\ dict_get k p = Some sub /\
        mutate_recursive sub x st1 = (Raise e, st')
  end.
Proof.
  intros Ht Hp ND. rewrite (walk_object sch _ Ht), Hp. unfold bind at 1.
  destruct (for_each (object_body mutate_recursive (VDict p)) d [] st)
    as [[items|e] st1] eqn:E; intros H; inversion H; subst; clear H.
  - apply (object_loop_ok mutate_recursive p d [] st) in E; [|exact ND].
    destruct E as (items' & -> & T). exists items'. simpl.
    split; [reflexivity|]. split.
    + intros k v Hd Hk. rewrite (threaded_fields_frame _ _ _ _ _ _ T k Hk).
      exact Hd.
    + intros k _ Hd. apply dict_get_none_keys.
      rewrite (threaded_fields_keys _ _ _ _ _ _ T).
      apply dict_get_none_keys, Hd.
  - eapply object_loop_raise. exact E.
Qed.

(** X17. An ["object"] node without ["properties"]: the mapping built for a
    mapping sample is never returned, the call falls off the end of the
    function and yields [None]; nothing is drawn or logged. *)
Remark object_without_properties (sch d : dict) (st : state) :
  dict_get (lit "type") sch = Some (VStr (lit "object")) ->
  dict_get (lit "properties") sch = None ->
  mutate_recursive (VDict sch) (VDict d) st = (Ok VNone, st).
Proof. intros Ht Hp. rewrite (walk_object sch _ Ht), Hp. reflexivity. Qed.

End Properties.

(** ** Further facts about draws and loops *)

Lemma distinct_NoDup (l : list pystr) : distinct l = true -> NoDup l.
Proof.
  induction l as [|k l IH]; simpl; intros H; constructor;
    apply andb_true_iff in H; destruct H as [H1 H2]; [|apply IH, H2].
  intros Hin. apply negb_true_iff in H1.
  assert (E : existsb (pystr_eqb k) l = true)
    by (apply existsb_exists; exists k; split; [exact Hin | apply pystr_eqb_refl]).
  congruence.
Qed.

Lemma randbelow_first_draw (n : N) (st : state) :
  randbelow n st = (Ok (first_draw n st), advance st).
Proof.
  unfold randbelow, first_draw, advance. destruct st as [[|r t] w]; reflexivity.
Qed.

Lemma choice_first_draw {A} (d : A) (seq : list A) (st : state) :
  choice d seq st =
  (Ok (nth (N.to_nat (first_draw (N.of_nat (List.length seq)) st)) seq d),
   advance st).
Proof. unfold choice, bind. rewrite randbelow_first_draw. reflexivity. Qed.

Lemma first_draw_below (n : N) (st : state) :
  n <> 0%N -> (first_draw n st < n)%N.
Proof.
  intros Hn. unfold first_draw. destruct (tape st); [lia|].
  apply N.mod_upper_bound, Hn.
Qed.

Lemma for_each_app {A B} (body : B -> A -> M B) (l1 l2 : list A) :
  forall acc st,
    for_each body (l1 ++ l2) acc st =
    bind (for_each body l1 acc) (for_each body l2) st.
Proof.
  induction l1 as [|x l1 IH]; intros acc st; simpl; [reflexivity|].
  unfold bind in *. destruct (body acc x st) as [[acc'|e] st1];
    [apply IH | reflexivity].
Qed.

(** A loop whose body does not look at the index runs the same on any range
    of the same length. *)
Lemma for_each_range {B} (body : B -> M B) (n : nat) :
  forall a acc st,
    for_each (fun acc (_ : nat) => body acc) (seq a n) acc st =
    for_each (fun acc (_ : nat) => body acc) (seq 0 n) acc st.
Proof.
  induction n as [|n IH]; intros a acc st; simpl; [reflexivity|].
  unfold bind. destruct (body acc st) as [[acc'|e] st1]; [|reflexivity].
  rewrite (IH (S a)), (IH 1%nat). reflexivity.
Qed.

(** An appending loop started on [acc] prefixes [acc] to what it builds from
    the empty list. *)
Lemma append_loop_prefix {A B} (f : A -> M B) (l : list A) :
  forall acc st,
    for_each (fun acc x => v <- f x ;; ret (acc ++ [v])) l acc st =
    (ys <- for_each (fun acc x => v <- f x ;; ret (acc ++ [v])) l [] ;;
     ret (acc ++ ys)) st.
Proof.
  unfold bind, ret.
  induction l as [|x l IH]; intros acc st; simpl.
  - rewrite app_nil_r. reflexivity.
  - unfold bind. destruct (f x st) as [[v|e] st1]; [|reflexivity].
    rewrite IH, (IH [v]).
    match goal with
    | |- context [for_each ?b l [] st1] =>
        destruct (for_each b l [] st1) as [[ys|e] st2]
    end; [|reflexivity].
    rewrite <- app_assoc. reflexivity.
Qed.

(** ** Further properties of the engine *)

(** Selects the strategy at a known index of the list. *)
Ltac pick_nth :=
  match goal with
  | |- context [N.to_nat ?n] =>
      let v := eval vm_compute in (N.to_nat n) in
      change (N.to_nat n) with v
  end;
  cbn [nth string_strategies integer_strategies number_strategies].

Section Further.

Variables str_upper str_lower : pystr -> pystr.

Local Notation mutate_recursive := (_mutate_recursive str_upper str_lower).
Local Notation mutate_string := (_mutate_string str_upper str_lower).
Local Notation mutate_n := (mutate str_upper str_lower).

(** *** Schemas without a type tag *)

Lemma untyped_loop (d : dict) :
  Forall (fun item : pystr * value =>
            forall st, mutate_recursive (VDict []) (snd item) st =
                       (Ok (snd item), st)) d ->
  forall acc st,
    NoDup (keys acc ++ keys d) ->
    for_each (fun acc (item : pystr * value) =>
                v <- mutate_recursive (VDict []) (snd item) ;;
                ret (dict_set (fst item) v acc)) d acc st =
    (Ok (acc ++ d), st).
Proof.
  induction 1 as [|[k x] d Hx _ IH]; intros acc st ND; simpl.
  - unfold ret. rewrite app_nil_r. reflexivity.
  - unfold bind at 1 2. simpl in Hx. rewrite Hx. unfold ret at 1.
    simpl fst. rewrite dict_set_fresh.
    + rewrite IH.
      * rewrite <- app_assoc. reflexivity.
      * rewrite keys_app. simpl. rewrite <- app_assoc. exact ND.
    + intros Hin. apply NoDup_remove_2 in ND. apply ND, in_or_app. auto.
Qed.

(** X1. A schema without a ["type"] key, or one that is not a mapping at
    all, mutates nothing: the traversal returns a value equal to the sample,
    draws nothing and logs nothing (mappings are rebuilt key by key, lists
    and scalars are handed back as they are). *)
Theorem untyped_walk_is_identity (schema data : value) (st : state) :
  match schema with
  | VDict sch => dict_get (lit "type") sch = None
  | _ => True
  end ->
  mappings_wf data = true ->
  mutate_recursive schema data st = (Ok data, st).
Proof.
  intros Hs Hwf. revert schema st Hs.
  induction data as [ | b | z | f | s | l _ | d IH] using value_nested_ind;
    intros schema st Hs; rewrite (walk_untyped_schema _ _ schema _ Hs);
    try reflexivity.
  simpl in Hwf. apply andb_true_iff in Hwf. destruct Hwf as [Hk Hv].
  rewrite forallb_forall in Hv. unfold walk_untyped, bind at 1.
  rewrite untyped_loop.
  - reflexivity.
  - rewrite Forall_forall in *. intros item Hin st0.
    apply (IH item Hin (Hv item Hin)). reflexivity.
  - simpl. apply distinct_NoDup, Hk.
Qed.

(** *** The driver *)

(** X2. Iterations compose: for non-negative [m] and [n], [mutate(m + n)]
    is [mutate(m)] followed by [mutate(n)] in the state the first left, the
    two sequences concatenated; an exception of either run is the exception
    of the whole. *)
Theorem mutate_iterations_compose (schema sample : value) (m n : Z) (st : state) :
  0 <= m -> 0 <= n ->
  mutate_n schema sample (m + n) st =
  (first <- mutate_n schema sample m ;;
   rest <- mutate_n schema sample n ;;
   ret (first ++ rest)) st.
Proof.
  intros Hm Hn. unfold mutate.
  rewrite Z2Nat.inj_add by assumption. rewrite seq_app, for_each_app.
  unfold bind at 1 4. simpl Nat.add.
  set (body := fun (mutated_payloads : list value) (_ : nat) =>
                 v <- mutate_recursive schema sample ;;
                 ret (mutated_payloads ++ [v])).
  destruct (for_each body (seq 0 (Z.to_nat m)) [] st) as [[first|e] st1];
    [|reflexivity].
  unfold body.
  rewrite (for_each_range
             (fun acc => v <- mutate_recursive schema sample ;; ret (acc ++ [v]))).
  apply (append_loop_prefix (fun _ : nat => mutate_recursive schema sample)).
Qed.

(** X3. A count of zero or less runs no traversal: [mutate] returns the
    empty list, draws nothing and raises nothing, whatever the schema and the
    sample are. *)
Theorem mutate_nonpositive (schema sample : value) (n : Z) (st : state) :
  n <= 0 -> mutate_n schema sample n st = (Ok [], st).
Proof.
  intros Hn. unfold mutate.
  replace (Z.to_nat n) with 0%nat by (destruct n; simpl; lia).
  reflexivity.
Qed.

(** *** Leaves *)

Lemma null_loop (isch : dict) (l : list value) :
  dict_get (lit "type") isch = Some (VStr (lit "null")) ->
  forall acc st,
    for_each (fun acc item =>
                v <- mutate_recursive (VDict isch) item ;; ret (acc ++ [v]))
             l acc st =
    (Ok (acc ++ repeat VNone (List.length l)), st).
Proof.
  intros Ht. induction l as [|x l IH]; intros acc st; cbn [for_each].
  - unfold ret. simpl. rewrite app_nil_r. reflexivity.
  - unfold bind at 1 2. rewrite (walk_null _ _ isch _ Ht). unfold ret at 1 2.
    rewrite IH. simpl. rewrite <- app_assoc. reflexivity.
Qed.

(** X4. Null forcing: at a ["null"] node the traversal returns [None] for
    every sample value, and under [{"type": "array", "items": {"type":
    "null"}}] a list of any values becomes the list of as many [None]s;
    nothing is drawn or logged in either case. *)
Theorem null_forcing (sch : dict) (st : state) :
  (dict_get (lit "type") sch = Some (VStr (lit "null")) ->
   forall data, mutate_recursive (VDict sch) data st = (Ok VNone, st)) /\
  (forall isch l,
      dict_get (lit "type") sch = Some (VStr (lit "array")) ->
      dict_get (lit "items") sch = Some (VDict isch) ->
      dict_get (lit "type") isch = Some (VStr (lit "null")) ->
      mutate_recursive (VDict sch) (VList l) st =
      (Ok (VList (repeat VNone (List.length l))), st)).
Proof.
  split.
  - intros Ht data. rewrite (walk_null _ _ sch _ Ht). reflexivity.
  - intros isch l Ht Hi Hit. rewrite (walk_array _ _ sch _ Ht), Hi.
    unfold bind at 1. rewrite (null_loop isch l Hit). reflexivity.
Qed.

(** X5. At a ["boolean"] node the result is decided by one draw alone:
    index 1 gives [True], index 0 gives [False] ([not] of the element chosen
    in [[True, False]]), so both values can come out of any sample. *)
Theorem boolean_follows_draw (sch : dict) (data : value) (st : state) :
  dict_get (lit "type") sch = Some (VStr (lit "boolean")) ->
  mutate_recursive (VDict sch) data st =
  (Ok (VBool (N.eqb (first_draw 2 st) 1)), advance st).
Proof.
  intros Ht. rewrite (walk_boolean _ _ sch _ Ht).
  unfold _mutate_boolean, bind. rewrite choice_first_draw. unfold ret.
  change (N.of_nat (List.length [true; false])) with 2%N.
  pose proof (first_draw_below 2 st) as B.
  assert (C : first_draw 2 st = 0%N \/ first_draw 2 st = 1%N) by lia.
  destruct C as [-> | ->]; reflexivity.
Qed.

Lemma unsupported_loop (isch : dict) (t : value) (l : list value) :
  dict_get (lit "type") isch = Some t ->
  (forall s, In s supported_types -> t <> VStr (lit s)) ->
  forall acc st,
    for_each (fun acc item =>
                v <- mutate_recursive (VDict isch) item ;; ret (acc ++ [v]))
             l acc st =
    (Ok (acc ++ l),
     mkState (tape st) (warnings st ++ repeat t (List.length l))).
Proof.
  intros Ht Hno. induction l as [|x l IH]; intros acc st; simpl.
  - unfold ret. rewrite !app_nil_r. destruct st; reflexivity.
  - unfold bind at 1 2.
    rewrite (unsupported_type_walk _ _ isch t x st Ht Hno). unfold ret at 1.
    rewrite IH. simpl. rewrite <- !app_assoc. reflexivity.
Qed.

(** X6. Items of an unsupported type: at an ["array"] node whose ["items"]
    schema carries a type tag the engine does not know, a list sample comes
    back equal, element for element; nothing is drawn and one warning per
    element is logged. *)
Theorem unsupported_items_pass_through (sch isch : dict) (t : value)
    (l : list value) (st : state) :
  dict_get (lit "type") sch = Some (VStr (lit "array")) ->
  dict_get (lit "items") sch = Some (VDict isch) ->
  dict_get (lit "type") isch = Some t ->
  (forall s, In s supported_types -> t <> VStr (lit s)) ->
  mutate_recursive (VDict sch) (VList l) st =
  (Ok (VList l), mkState (tape st) (warnings st ++ repeat t (List.length l))).
Proof.
  intros Ht Hi Hit Hno. rewrite (walk_array _ _ sch _ Ht), Hi.
  unfold bind at 1. rewrite (unsupported_loop isch t l Hit Hno). reflexivity.
Qed.

(** *** The string mutator *)

Lemma letters_threaded (l : list nat) (st : state) (ys : pystr) (st' : state) :
  threaded (returns (fun _ : nat => choice 0%N alphabet)) l st ys st' ->
  Forall (fun c => In c alphabet) ys.
Proof.
  induction 1 as [|x xs y ys st st1 st2 S _ IH]; constructor; [|exact IH].
  unfold returns in S. rewrite choice_first_draw in S.
  replace y with
    (nth (N.to_nat (first_draw (N.of_nat (List.length alphabet)) st))
         alphabet 0%N) by congruence.
  apply nth_In.
  pose proof (first_draw_below (N.of_nat (List.length alphabet)) st) as B.
  assert (N.of_nat (List.length alphabet) <> 0%N) by discriminate. lia.
Qed.

Lemma random_letters_shape (n : Z) (st : state) :
  exists s st',
    random_letters n st = (Ok s, st') /\
    List.length s = Z.to_nat n /\
    Forall (fun c => In c alphabet) s.
Proof.
  destruct (random_letters_returns n st) as (s & st' & E).
  exists s, st'. split; [exact E|].
  unfold random_letters in E.
  apply (append_loop_ok (fun _ : nat => choice 0%N alphabet)) in E.
  destruct E as (ys & -> & T). simpl. split.
  - rewrite (threaded_length _ _ _ _ _ T). apply length_seq.
  - eapply letters_threaded. exact T.
Qed.

(** X7. The replacement strategy: when the draw picks the last of the eight
    strategies, [_mutate_string] returns a [str] of 5 to 15 characters, all
    among the 26 lowercase letters, whatever the input is (a [str] or
    not). *)
Theorem random_replacement_shape (data : value) (st : state) :
  first_draw 8 st = 7%N ->
  exists s st',
    mutate_string data st = (Ok (VStr s), st') /\
    (5 <= List.length s <= 15)%nat /\
    Forall (fun c => In c alphabet) s.
Proof.
  intros Hd. unfold _mutate_string, bind. rewrite choice_first_draw.
  change (N.of_nat (List.length (string_strategies str_upper str_lower)))
    with 8%N.
  rewrite Hd. pick_nth.
  unfold bind.
  destruct (randint_returns 5 15 (advance st)) as (k & st1 & -> & _ & Hk); [lia|].
  destruct (random_letters_shape k st1) as (s & st2 & -> & L & F).
  exists s, st2. unfold ret. split; [reflexivity|]. split; [lia | exact F].
Qed.

Lemma first_draw_cases_8 (st : state) :
  let i := first_draw 8 st in
  i = 0%N \/ i = 1%N \/ i = 2%N \/ i = 3%N \/
  i = 4%N \/ i = 5%N \/ i = 6%N \/ i = 7%N.
Proof. pose proof (first_draw_below 8 st). simpl. lia. Qed.

Lemma mutate_string_pick (data : value) (st : state) :
  mutate_string data st =
  nth (N.to_nat (first_draw 8 st)) (string_strategies str_upper str_lower)
      (fun s => ret s) data (advance st).
Proof.
  unfold _mutate_string, bind. rewrite choice_first_draw. reflexivity.
Qed.

(** X8. What [_mutate_string] can return on a [str] [s]: [s] followed by
    one to five exclamation marks, [s.upper()], [s.lower()], [s] reversed,
    [s] followed by the script payload, by the SQL fragment or by one NUL
    character, or 5 to 15 lowercase letters -- and nothing else. *)
Theorem mutate_string_forms (s : pystr) (st : state) :
  exists s' st',
    mutate_string (VStr s) st = (Ok (VStr s'), st') /\
    ((exists k, 1 <= k <= 5 /\ s' = s ++ seq_repeat (lit "!") (Z.to_nat k)) \/
     s' = str_upper s \/
     s' = str_lower s \/
     s' = rev s \/
     s' = s ++ lit "<script>alert('XSS')</script>" \/
     s' = s ++ lit "' OR '1'='1" \/
     s' = s ++ [0%N] \/
     ((5 <= List.length s' <= 15)%nat /\ Forall (fun c => In c alphabet) s')).
Proof.
  destruct (first_draw_cases_8 st) as [H|[H|[H|[H|[H|[H|[H|H]]]]]]].
  - rewrite mutate_string_pick, H.
    pick_nth.
    unfold bind.
    destruct (randint_returns 1 5 (advance st)) as (k & st1 & -> & _ & Hk); [lia|].
    simpl. eexists; eexists; split; [reflexivity|]. left. eauto.
  - rewrite mutate_string_pick, H. simpl.
    eexists; eexists; split; [reflexivity|]. tauto.
  - rewrite mutate_string_pick, H. simpl.
    eexists; eexists; split; [reflexivity|]. tauto.
  - rewrite mutate_string_pick, H. simpl.
    eexists; eexists; split; [reflexivity|]. tauto.
  - rewrite mutate_string_pick, H. simpl.
    eexists; eexists; split; [reflexivity|]. tauto.
  - rewrite mutate_string_pick, H. simpl.
    eexists; eexists; split; [reflexivity|]. tauto.
  - rewrite mutate_string_pick, H. simpl.
    eexists; eexists; split; [reflexivity|]. tauto.
  - rewrite mutate_string_pick, H. pick_nth. unfold bind.
    destruct (randint_returns 5 15 (advance st)) as (k & st1 & -> & _ & Hk); [lia|].
    destruct (random_letters_shape k st1) as (s' & st2 & -> & L & F).
    exists s', st2. unfold ret. split; [reflexivity|].
    repeat right. split; [lia | exact F].
Qed.


(** *** The integer mutator *)

Lemma first_draw_cases_7 (st : state) :
  let i := first_draw 7 st in
  i = 0%N \/ i = 1%N \/ i = 2%N \/ i = 3%N \/ i = 4%N \/ i = 5%N \/ i = 6%N.
Proof. pose proof (first_draw_below 7 st). simpl. lia. Qed.

Lemma mutate_integer_pick (data : value) (st : state) :
  _mutate_integer data st =
  try_except
    (nth (N.to_nat (first_draw 7 st)) integer_strategies (fun i => ret i) data)
    OverflowError (ret data) (advance st).
Proof.
  unfold _mutate_integer, bind. rewrite choice_first_draw. reflexivity.
Qed.

Lemma integer_closed_on_int (i : Z) (st : state) :
  exists v st', _mutate_integer (VInt i) st = (Ok (VInt v), st').
Proof.
  rewrite mutate_integer_pick. unfold try_except.
  destruct (first_draw_cases_7 st) as [H|[H|[H|[H|[H|[H|H]]]]]];
    rewrite H; pick_nth; unfold bind; try (unfold ret; eauto; fail).
  - destruct (randint_returns 1 10 (advance st)) as (k & st1 & -> & _); [lia|].
    simpl. eauto.
  - destruct (randint_returns 1 10 (advance st)) as (k & st1 & -> & _); [lia|].
    simpl. eauto.
  - destruct (randint_returns 1 3 (advance st)) as (k & st1 & -> & _); [lia|].
    simpl. eauto.
  - destruct (randint_returns 1 3 (advance st)) as (g & st1 & -> & _ & Hg); [lia|].
    replace (g =? 0) with false by (symmetry; apply Z.eqb_neq; lia).
    change (negb false) with true. cbv beta iota.
    destruct (randint_returns 1 3 st1) as (k & st2 & -> & _ & Hk); [lia|].
    unfold lift, py_floordiv. simpl as_num. cbv beta iota. unfold num_op.
    replace (k =? 0) with false by (symmetry; apply Z.eqb_neq; lia).
    eauto.
Qed.

(** X10. What [_mutate_integer] can return on an [int] [i]: [i + k] or
    [i - k] for [k] in 1..10, [i * k] or the floor quotient [i // k] for [k]
    in 1..3, [2**31 - 1], [-2**31] or [0] -- always an [int], and nothing
    else. *)
Theorem mutate_integer_on_int (i : Z) (st : state) :
  exists v st',
    _mutate_integer (VInt i) st = (Ok (VInt v), st') /\
    ((exists k, 1 <= k <= 10 /\ v = i + k) \/
     (exists k, 1 <= k <= 10 /\ v = i - k) \/
     (exists k, 1 <= k <= 3 /\ v = i * k) \/
     (exists k, 1 <= k <= 3 /\ v = i / k) \/
     v = 2 ^ 31 - 1 \/ v = - 2 ^ 31 \/ v = 0).
Proof.
  rewrite mutate_integer_pick. unfold try_except.
  destruct (first_draw_cases_7 st) as [H|[H|[H|[H|[H|[H|H]]]]]];
    rewrite H; pick_nth; unfold bind.
  - destruct (randint_returns 1 10 (advance st)) as (k & st1 & -> & _ & Hk); [lia|].
    simpl. eexists; eexists; split; [reflexivity|]. left. eauto.
  - destruct (randint_returns 1 10 (advance st)) as (k & st1 & -> & _ & Hk); [lia|].
    simpl. eexists; eexists; split; [reflexivity|]. right; left. eauto.
  - destruct (randint_returns 1 3 (advance st)) as (k & st1 & -> & _ & Hk); [lia|].
    simpl. eexists; eexists; split; [reflexivity|]. do 2 right; left. eauto.
  - destruct (randint_returns 1 3 (advance st)) as (g & st1 & -> & _ & Hg); [lia|].
    replace (g =? 0) with false by (symmetry; apply Z.eqb_neq; lia).
    change (negb false) with true. cbv beta iota.
    destruct (randint_returns 1 3 st1) as (k & st2 & -> & _ & Hk); [lia|].
    unfold lift, py_floordiv. simpl as_num. cbv beta iota. unfold num_op.
    replace (k =? 0) with false by (symmetry; apply Z.eqb_neq; lia).
    eexists; eexists; split; [reflexivity|]. do 3 right; left. eauto.
  - unfold ret. eexists; eexists; split; [reflexivity|]. tauto.
  - unfold ret. eexists; eexists; split; [reflexivity|]. tauto.
  - unfold ret. eexists; eexists; split; [reflexivity|]. tauto.
Qed.

(** X11. [_mutate_integer] raises on no [bool], [int] or [float], and on
    anything else the only exception it can raise is [TypeError]: nothing
    overflows and nothing divides by zero, so its [except OverflowError]
    handler never runs. *)
Theorem mutate_integer_raises_only_type_error (data : value) (st : state)
    (e : exn) (st' : state) :
  _mutate_integer data st = (Raise e, st') ->
  e = TypeError /\ integer_ok data = false.
Proof.
  intros H. split.
  - rewrite mutate_integer_without_handler in H. unfold bind in H.
    rewrite choice_first_draw in H.
    pose proof (integer_strategies_raise data) as F.
    rewrite Forall_forall in F. eapply F; [|exact H].
    apply nth_In. pose proof (first_draw_below 7 st).
    change (N.of_nat (List.length integer_strategies)) with 7%N.
    change (List.length integer_strategies) with 7%nat. lia.
  - destruct (integer_ok data) eqn:O; [|reflexivity].
    destruct (mutate_integer_returns data st O) as (v & st1 & E). congruence.
Qed.

(** X12. The boundary probes of [_mutate_integer] do not look at the input:
    when the draw picks index 4, 5 or 6 the result is [2**31 - 1], [-2**31]
    or [0], for any input value, numeric or not. *)
Theorem integer_boundary_probes (data : value) (st : state) :
  (first_draw 7 st = 4%N ->
   _mutate_integer data st = (Ok (VInt 2147483647), advance st)) /\
  (first_draw 7 st = 5%N ->
   _mutate_integer data st = (Ok (VInt (-2147483648)), advance st)) /\
  (first_draw 7 st = 6%N ->
   _mutate_integer data st = (Ok (VInt 0), advance st)).
Proof.
  repeat split; intros H; rewrite mutate_integer_pick, H; reflexivity.
Qed.

(** *** The number mutator *)

Lemma mutate_number_pick (data : value) (st : state) :
  _mutate_number data st =
  try_except
    (nth (N.to_nat (first_draw 7 st)) number_strategies (fun f => ret f) data)
    ZeroDivisionError (ret data) (advance st).
Proof.
  unfold _mutate_number, bind. rewrite choice_first_draw. reflexivity.
Qed.

Lemma number_arith (data : value) (u : float) (r : outcome value) :
  r = py_add data (VFloat u) \/ r = py_sub data (VFloat u) \/
  r = py_mul data (VFloat u) \/
  (float_is_zero u = false /\ r = py_truediv data u) ->
  number_arith_result data r.
Proof.
  unfold number_arith_result.
  intros [-> | [-> | [-> | [Hu ->]]]];
    unfold py_add, py_sub, py_mul, py_truediv;
    destruct data; simpl as_num; cbv beta iota; try reflexivity;
    unfold num_op, num_to_float; try rewrite Hu; eauto;
    match goal with
    | |- context [to_float ?z] =>
        let E := fresh "E" in
        destruct (to_float z) as [f|e] eqn:E;
        [eauto | apply to_float_raise in E; subst e; reflexivity]
    end.
Qed.

Lemma number_pick_arith (data : value) (st : state) :
  (first_draw 7 st < 4)%N ->
  exists r st1,
    nth (N.to_nat (first_draw 7 st)) number_strategies (fun f => ret f) data
        (advance st) = (r, st1) /\
    number_arith_result data r.
Proof.
  intros Hi.
  assert (C : first_draw 7 st = 0%N \/ first_draw 7 st = 1%N \/
              first_draw 7 st = 2%N \/ first_draw 7 st = 3%N) by lia.
  destruct C as [H|[H|[H|H]]]; rewrite H; pick_nth; unfold bind.
  - destruct (uniform_returns 0.1 1.0 (advance st)) as (u & st1 & ->).
    eexists; eexists; split; [reflexivity|]. apply (number_arith data u). auto.
  - destruct (uniform_returns 0.1 1.0 (advance st)) as (u & st1 & ->).
    eexists; eexists; split; [reflexivity|]. apply (number_arith data u). auto.
  - destruct (uniform_returns 1.1 2.0 (advance st)) as (u & st1 & ->).
    eexists; eexists; split; [reflexivity|]. apply (number_arith data u). auto.
  - destruct (uniform_divisor_nonzero (advance st)) as (g & st1 & -> & Hg).
    rewrite Hg. change (negb false) with true. cbv beta iota.
    destruct (uniform_divisor_nonzero st1) as (u & st2 & -> & Hu).
    eexists; eexists; split; [reflexivity|]. apply (number_arith data u). auto.
Qed.

(** X13. The special values of [_mutate_number] do not look at the input:
    when the draw picks index 4, 5 or 6 the result is [inf], [-inf] or
    [nan], for any input value, numeric or not. *)
Theorem number_special_values (data : value) (st : state) :
  (first_draw 7 st = 4%N ->
   _mutate_number data st = (Ok (VFloat infinity), advance st)) /\
  (first_draw 7 st = 5%N ->
   _mutate_number data st = (Ok (VFloat neg_infinity), advance st)) /\
  (first_draw 7 st = 6%N ->
   _mutate_number data st = (Ok (VFloat nan), advance st)).
Proof.
  repeat split; intros H; rewrite mutate_number_pick, H; reflexivity.
Qed.

(** X14. On a [float], and on a [bool] or [int] that converts to a float,
    [_mutate_number] always returns, and what it returns is a [float]: an
    [int] sample never stays an [int], and the input itself is never handed
    back by the guard or by the handler. *)
Theorem mutate_number_returns_float (data : value) (st : state) :
  number_ok data = true ->
  exists g st', _mutate_number data st = (Ok (VFloat g), st').
Proof.
  intros Hok. rewrite mutate_number_pick. unfold try_except.
  destruct (N.ltb_spec (first_draw 7 st) 4) as [Hi|Hi].
  - destruct (number_pick_arith data st Hi) as (r & st1 & -> & A).
    unfold number_arith_result in A. unfold number_ok in Hok.
    destruct (as_num data) as [x|]; [|discriminate].
    destruct (num_to_float x); [|discriminate].
    destruct A as (g & ->). eauto.
  - pose proof (first_draw_below 7 st).
    assert (C : first_draw 7 st = 4%N \/ first_draw 7 st = 5%N \/
                first_draw 7 st = 6%N) by lia.
    destruct C as [H'|[H'|H']]; rewrite H'; pick_nth; unfold ret; eauto.
Qed.

(** X15. The exceptions of [_mutate_number]: [TypeError], on a value that is
    not a number, and [OverflowError], on an [int] too large for a float.
    It never raises [ZeroDivisionError], the one class its handler
    catches. *)
Theorem mutate_number_errors (data : value) (st : state) (e : exn) (st' : state) :
  _mutate_number data st = (Raise e, st') ->
  (e = TypeError /\ integer_ok data = false) \/
  (e = OverflowError /\ integer_ok data = true /\ number_ok data = false).
Proof.
  rewrite mutate_number_pick. unfold try_except.
  destruct (N.ltb_spec (first_draw 7 st) 4) as [Hi|Hi].
  - destruct (number_pick_arith data st Hi) as (r & st1 & -> & A).
    unfold number_arith_result in A. unfold integer_ok, number_ok.
    destruct (as_num data) as [x|].
    + destruct (num_to_float x).
      * destruct A as (g & ->). discriminate.
      * subst r. simpl. intros H; inversion H. right. auto.
    + subst r. simpl. intros H; inversion H. left. auto.
  - pose proof (first_draw_below 7 st).
    assert (C : first_draw 7 st = 4%N \/ first_draw 7 st = 5%N \/
                first_draw 7 st = 6%N) by lia.
    destruct C as [H'|[H'|H']]; rewrite H'; pick_nth; unfold ret; discriminate.
Qed.

(** X16. An [int] too large for a float: whenever the draw picks one of the
    four arithmetic strategies (index 0 to 3), [_mutate_number] raises
    [OverflowError]; the handler, written for [ZeroDivisionError], lets it
    through. *)
Theorem number_overflow_on_big_int (z : Z) (st : state) :
  number_ok (VInt z) = false ->
  (first_draw 7 st < 4)%N ->
  exists st', _mutate_number (VInt z) st = (Raise OverflowError, st').
Proof.
  intros Hbig Hi. rewrite mutate_number_pick. unfold try_except.
  destruct (number_pick_arith (VInt z) st Hi) as (r & st1 & -> & A).
  unfold number_arith_result in A. unfold number_ok in Hbig.
  simpl as_num in *. cbv beta iota in *.
  destruct (num_to_float (NInt z)); [discriminate|].
  subst r. simpl. eauto.
Qed.

(** X18. Booleans are mutated as the integers 0 and 1: [_mutate_integer]
    gives on [True] and [False] exactly what it gives on [1] and [0] in the
    same state (an [int], never a [bool]). *)
Theorem mutate_integer_on_bool (b : bool) (st : state) :
  _mutate_integer (VBool b) st = _mutate_integer (VInt (if b then 1 else 0)) st.
Proof.
  rewrite !mutate_integer_pick. unfold try_except.
  destruct (first_draw_cases_7 st) as [H|[H|[H|[H|[H|[H|H]]]]]];
    rewrite H; pick_nth; unfold bind; try reflexivity.
  - destruct (randint_returns 1 10 (advance st)) as (k & st1 & -> & _); [lia|].
    reflexivity.
  - destruct (randint_returns 1 10 (advance st)) as (k & st1 & -> & _); [lia|].
    reflexivity.
  - destruct (randint_returns 1 3 (advance st)) as (k & st1 & -> & _); [lia|].
    destruct b; reflexivity.
  - destruct (randint_returns 1 3 (advance st)) as (g & st1 & -> & _ & Hg); [lia|].
    replace (g =? 0) with false by (symmetry; apply Z.eqb_neq; lia).
    change (negb false) with true. cbv beta iota.
    destruct (randint_returns 1 3 st1) as (k & st2 & -> & _ & Hk); [lia|].
    unfold lift, py_floordiv. simpl as_num. cbv beta iota. unfold num_op.
    replace (k =? 0) with false by (symmetry; apply Z.eqb_neq; lia).
    reflexivity.
Qed.

(** *** Malformed schemas *)

(** X19. A ["properties"] value that is no mapping, list or [str] (null, a
    boolean, a number) cannot be searched: the empty mapping still comes back
    as the empty mapping, any other mapping sample raises [TypeError] at its
    first key, before anything is drawn. *)
Theorem properties_not_a_container (sch d : dict) (p : value) (st : state) :
  dict_get (lit "type") sch = Some (VStr (lit "object")) ->
  dict_get (lit "properties") sch = Some p ->
  match p with
  | VDict _ | VList _ | VStr _ => False
  | _ => True
  end ->
  mutate_recursive (VDict sch) (VDict d) st =
  match d with
  | [] => (Ok (VDict []), st)
  | _ :: _ => (Raise TypeError, st)
  end.
Proof.
  intros Ht Hp Hn. rewrite (walk_object _ _ sch _ Ht), Hp.
  destruct d as [|item d]; [reflexivity|].
  destruct p; try contradiction; reflexivity.
Qed.

(** *** Arrays of integers *)

Lemma integer_items_loop (isch : dict) (l : list value) :
  dict_get (lit "type") isch = Some (VStr (lit "integer")) ->
  Forall (fun v => exists z, v = VInt z) l ->
  forall acc st,
  exists vs st',
    for_each (fun acc item =>
                v <- mutate_recursive (VDict isch) item ;; ret (acc ++ [v]))
             l acc st = (Ok (acc ++ vs), st') /\
    List.length vs = List.length l /\
    Forall (fun v => exists z, v = VInt z) vs.
Proof.
  intros Ht. induction 1 as [|x l (z & ->) _ IH]; intros acc st;
    cbn [for_each].
  - exists [], st. unfold ret. rewrite app_nil_r. auto.
  - unfold bind at 1 2. rewrite (walk_integer _ _ isch _ Ht).
    destruct (integer_closed_on_int z st) as (v & st1 & ->).
    unfold ret at 1.
    destruct (IH (acc ++ [VInt v]) st1) as (vs & st2 & -> & L & F).
    exists (VInt v :: vs), st2. rewrite <- app_assoc. simpl.
    split; [reflexivity|]. split; [congruence|]. constructor; eauto.
Qed.

(** X20. Shape preservation on well-typed input: under
    [{"type": "array", "items": {"type": "integer"}}] a list of [int]s always
    comes back as a list of [int]s of the same length; no draw can make the
    call raise. *)
Theorem integer_array_shape (sch isch : dict) (l : list value) (st : state) :
  dict_get (lit "type") sch = Some (VStr (lit "array")) ->
  dict_get (lit "items") sch = Some (VDict isch) ->
  dict_get (lit "type") isch = Some (VStr (lit "integer")) ->
  Forall (fun v => exists z, v = VInt z) l ->
  exists vs st',
    mutate_recursive (VDict sch) (VList l) st = (Ok (VList vs), st') /\
    List.length vs = List.length l /\
    Forall (fun v => exists z, v = VInt z) vs.
Proof.
  intros Ht Hi Hit Hl. rewrite (walk_array _ _ sch _ Ht), Hi. unfold bind at 1.
  destruct (integer_items_loop isch l Hit Hl [] st) as (vs & st' & -> & L & F).
  exists vs, st'. auto.
Qed.

End Further.

(** ** The statements at concrete inputs *)

Lemma string_closure_witness :
  exists s' st',
    run_recursive (typed "string") (VStr (lit "ab")) (fresh [1%N]) =
    (Ok (VStr s'), st').
Proof.
  destruct (string_closure ascii_upper ascii_lower (lit "ab")) as (_ & _ & _ & H).
  apply (H [(lit "type", VStr (lit "string"))] (fresh [1%N])).
  reflexivity.
Defined.

Lemma boolean_noninterference_witness :
  run_recursive (typed "boolean") (VBool true) (fresh [0%N]) =
  run_recursive (typed "boolean") (VStr (lit "x")) (fresh [0%N]) /\
  exists b st',
    run_recursive (typed "boolean") (VBool true) (fresh [0%N]) =
    (Ok (VBool b), st').
Proof.
  apply (boolean_noninterference ascii_upper ascii_lower
           [(lit "type", VStr (lit "boolean"))]).
  reflexivity.
Defined.

Lemma array_without_items_witness :
  run_recursive (typed "array") (VStr (lit "x")) (fresh [3%N]) =
  (Ok (VList []), fresh [3%N]).
Proof.
  apply (array_without_items ascii_upper ascii_lower
           [(lit "type", VStr (lit "array"))]); reflexivity.
Defined.

Lemma unsupported_type_passthrough_witness :
  run_recursive (typed "date") (VInt 7) (fresh [3%N]) =
  (Ok (VInt 7), mkState [3%N] [VStr (lit "date")]).
Proof.
  apply (unsupported_type_passthrough ascii_upper ascii_lower
           [(lit "type", VStr (lit "date"))] (VStr (lit "date"))).
  - reflexivity.
  - intros s Hs. simpl in Hs.
    repeat (destruct Hs as [<- | Hs]; [vm_compute; discriminate|]).
    contradiction.
Defined.

Ltac distinct_keys :=
  vm_compute; repeat constructor; simpl; intuition discriminate.

Lemma traversal_total_on_compatible_leaves_witness :
  (leaf_ok (VDict (object_with_a "string")) (VDict sample_ab) = true /\
   exists v st',
     run_recursive (VDict (object_with_a "string")) (VDict sample_ab)
                   (fresh [1%N]) = (Ok v, st')) /\
  run_recursive (typed "object") (VInt 5) (fresh [3%N]) =
  (Ok (VDict []), fresh [3%N]) /\
  run_recursive (typed "array") (VStr (lit "x")) (fresh [3%N]) =
  (Ok (VList []), fresh [3%N]) /\
  run_recursive (VDict []) (VInt 5) (fresh [3%N]) = (Ok (VInt 5), fresh [3%N]).
Proof.
  split; [split; [reflexivity|] | split; [|split]].
  - apply (traversal_total_on_compatible_leaves ascii_upper ascii_lower
             (VDict (object_with_a "string")) (VDict sample_ab) (fresh [1%N])).
    reflexivity.
  - destruct (traversal_total_on_compatible_leaves ascii_upper ascii_lower
                (typed "object") (VInt 5) (fresh [3%N])) as (_ & H & _).
    apply (H [(lit "type", VStr (lit "object"))]);
      [reflexivity | reflexivity | intros d; discriminate].
  - destruct (traversal_total_on_compatible_leaves ascii_upper ascii_lower
                (typed "array") (VStr (lit "x")) (fresh [3%N])) as (_ & _ & H & _).
    apply (H [(lit "type", VStr (lit "array"))]);
      [reflexivity | reflexivity | intros l; discriminate].
  - destruct (traversal_total_on_compatible_leaves ascii_upper ascii_lower
                (VDict []) (VInt 5) (fresh [3%N])) as (_ & _ & _ & H).
    apply H; [reflexivity | intros d; discriminate].
Defined.

(** C1 as stated fails: under [{"type": "string"}] the integer sample [5],
    with the first strategy drawn, raises [TypeError]. *)
Lemma traversal_total_counterexample :
  run_recursive (typed "string") (VInt 5) (fresh [0%N; 0%N]) =
  (Raise TypeError, fresh []) /\
  ~ exists v st',
      run_recursive (typed "string") (VInt 5) (fresh [0%N; 0%N]) = (Ok v, st').
Proof.
  assert (E : run_recursive (typed "string") (VInt 5) (fresh [0%N; 0%N]) =
              (Raise TypeError, fresh [])) by (vm_compute; reflexivity).
  split; [exact E|]. intros (v & st' & H). rewrite E in H. discriminate.
Qed.

Lemma object_fields_witness :
  NoDup (keys sample_ab) /\
  run_recursive (VDict (object_with_a "string")) (VDict sample_ab) (fresh [1%N]) =
  (Ok (VDict [(lit "a", VStr (lit "X")); (lit "b", VInt 42)]), fresh []).
Proof.
  assert (ND : NoDup (keys sample_ab)) by distinct_keys.
  split; [exact ND|].
  destruct (object_fields ascii_upper ascii_lower (object_with_a "string")
              (field_a "string") sample_ab (fresh [1%N]) eq_refl eq_refl ND)
    as (_ & H & _).
  apply H.
  apply threaded_cons with (st1 := fresh []).
  - split; [reflexivity|]. vm_compute. reflexivity.
  - apply threaded_cons with (st1 := fresh []).
    + split; [reflexivity|]. vm_compute. auto.
    + apply threaded_nil.
Defined.

(** C2 as stated fails: with [{"a": {"type": "string"}}] declared, the mapping
    [{"a": 5}] yields no mapping, [TypeError] leaves the call. *)
Lemma object_fields_counterexample :
  run_recursive (VDict (object_with_a "string")) (VDict [(lit "a", VInt 5)])
                (fresh [0%N; 0%N]) = (Raise TypeError, fresh []) /\
  ~ exists items st',
      run_recursive (VDict (object_with_a "string")) (VDict [(lit "a", VInt 5)])
                    (fresh [0%N; 0%N]) = (Ok (VDict items), st').
Proof.
  assert (E : run_recursive (VDict (object_with_a "string"))
                (VDict [(lit "a", VInt 5)]) (fresh [0%N; 0%N]) =
              (Raise TypeError, fresh [])) by (vm_compute; reflexivity).
  split; [exact E|]. intros (v & st' & H). rewrite E in H. discriminate.
Qed.

Lemma mutate_cardinality_witness :
  0 <= 3 /\
  exists out st',
    run_mutate (typed "integer") (VInt 10) 3
               (fresh [0; 0; 1; 1; 2; 2]%N) = (Ok out, st') /\
    Z.of_nat (List.length out) = 3.
Proof.
  split; [lia|].
  destruct (mutate_cardinality ascii_upper ascii_lower (typed "integer")
              (VInt 10) 3 (fresh [0; 0; 1; 1; 2; 2]%N)) as (_ & _ & H & _).
  - lia.
  - apply H. reflexivity.
Defined.

(** C3 as stated fails: [mutate(1)] on schema [{"type": "string"}] and sample
    [5] returns no sequence, [TypeError] leaves the call. *)
Lemma mutate_cardinality_counterexample :
  run_mutate (typed "string") (VInt 5) 1 (fresh [0%N; 0%N]) =
  (Raise TypeError, fresh []) /\
  ~ exists out st',
      run_mutate (typed "string") (VInt 5) 1 (fresh [0%N; 0%N]) = (Ok out, st').
Proof.
  assert (E : run_mutate (typed "string") (VInt 5) 1 (fresh [0%N; 0%N]) =
              (Raise TypeError, fresh [])) by (vm_compute; reflexivity).
  split; [exact E|]. intros (v & st' & H). rewrite E in H. discriminate.
Qed.

Lemma array_items_elementwise_witness :
  exists vs,
    run_recursive (VDict (array_of "integer")) (VList [VInt 1; VInt 2; VInt 3])
                  (fresh [0; 0; 1; 1; 2; 2]%N) = (Ok (VList vs), fresh []) /\
    List.length vs = 3%nat.
Proof.
  destruct (array_items_elementwise ascii_upper ascii_lower
              (array_of "integer") (typed "integer")
              [VInt 1; VInt 2; VInt 3] (fresh [0; 0; 1; 1; 2; 2]%N)
              eq_refl eq_refl) as (H & _ & _).
  destruct (H (VList [VInt 2; VInt 0; VInt 9]) (fresh []))
    as (vs & E & L & _).
  - vm_compute. reflexivity.
  - exists vs. split; [|exact L]. rewrite <- E. vm_compute. reflexivity.
Defined.

(** C4 as stated fails: under items [{"type": "string"}] the list [[5]] yields
    no list, [TypeError] leaves the call. *)
Lemma array_items_counterexample :
  run_recursive (VDict (array_of "string")) (VList [VInt 5]) (fresh [0%N; 0%N]) =
  (Raise TypeError, fresh []) /\
  ~ exists vs st',
      run_recursive (VDict (array_of "string")) (VList [VInt 5])
                    (fresh [0%N; 0%N]) = (Ok (VList vs), st').
Proof.
  assert (E : run_recursive (VDict (array_of "string")) (VList [VInt 5])
                (fresh [0%N; 0%N]) = (Raise TypeError, fresh []))
    by (vm_compute; reflexivity).
  split; [exact E|]. intros (v & st' & H). rewrite E in H. discriminate.
Qed.

Lemma unknown_fields_pass_through_witness :
  exists items,
    VDict [(lit "a", VStr (lit "X")); (lit "b", VInt 42)] = VDict items /\
    (forall k v, dict_get k sample_ab = Some v ->
                 dict_get k (field_a "string") = None ->
                 dict_get k items = Some v) /\
    (forall k, dict_get k (field_a "string") <> None ->
               dict_get k sample_ab = None ->
               dict_get k items = None).
Proof.
  apply (unknown_fields_pass_through ascii_upper ascii_lower
           (object_with_a "string") (field_a "string") sample_ab
           (fresh [1%N])
           (Ok (VDict [(lit "a", VStr (lit "X")); (lit "b", VInt 42)]))
           (fresh [])).
  - reflexivity.
  - reflexivity.
  - distinct_keys.
  - vm_compute. reflexivity.
Defined.

(** C8, at the failing input: on the integer [10 ** 400] the first strategy
    of [_mutate_number] cannot convert its operand to a float; the
    [OverflowError] is not the [ZeroDivisionError] the handler catches and
    leaves [_mutate_number], and the traversal with it. *)
Theorem number_mutation_overflow_escapes :
  _mutate_number (VInt (10 ^ 400)) (fresh [0%N; 0%N]) =
  (Raise OverflowError, fresh []) /\
  run_recursive (typed "number") (VInt (10 ^ 400)) (fresh [0%N; 0%N]) =
  (Raise OverflowError, fresh []).
Proof. split; vm_compute; reflexivity. Qed.

(** The largest draw of [random.random()] makes [random.uniform(1.1, 2.0)]
    round to the upper end of its interval. *)
Remark uniform_reaches_upper_end :
  uniform 1.1 2.0 (fresh [(2 ^ 53 - 1)%N]) = (Ok 2%float, fresh []).
Proof. vm_compute. reflexivity. Qed.

(** ** The further properties at concrete inputs *)

Lemma untyped_walk_is_identity_witness :
  mappings_wf sample_nested = true /\
  run_recursive (VDict []) sample_nested (fresh [3%N]) =
  (Ok sample_nested, fresh [3%N]).
Proof.
  split; [reflexivity|].
  apply (untyped_walk_is_identity ascii_upper ascii_lower); reflexivity.
Defined.

Lemma mutate_iterations_compose_witness :
  run_mutate (typed "integer") (VInt 10) (1 + 2) (fresh [0; 0; 1; 1; 2; 2]%N) =
  (first <- run_mutate (typed "integer") (VInt 10) 1 ;;
   rest <- run_mutate (typed "integer") (VInt 10) 2 ;;
   ret (first ++ rest)) (fresh [0; 0; 1; 1; 2; 2]%N).
Proof.
  apply (mutate_iterations_compose ascii_upper ascii_lower); lia.
Defined.

Lemma mutate_nonpositive_witness :
  run_mutate (typed "string") (VInt 5) (-3) (fresh [0%N]) = (Ok [], fresh [0%N]).
Proof. apply (mutate_nonpositive ascii_upper ascii_lower). lia. Defined.

Lemma null_forcing_witness :
  run_recursive (typed "null") (VInt 5) (fresh [0%N]) = (Ok VNone, fresh [0%N]) /\
  run_recursive (VDict (array_of "null")) (VList [VInt 1; VStr (lit "x")])
                (fresh [0%N]) = (Ok (VList [VNone; VNone]), fresh [0%N]).
Proof.
  split.
  - apply (proj1 (null_forcing ascii_upper ascii_lower
                    [(lit "type", VStr (lit "null"))] (fresh [0%N]))).
    reflexivity.
  - apply (proj2 (null_forcing ascii_upper ascii_lower (array_of "null")
                    (fresh [0%N]))
             [(lit "type", VStr (lit "null"))] [VInt 1; VStr (lit "x")]);
      reflexivity.
Defined.

Lemma boolean_follows_draw_witness :
  run_recursive (typed "boolean") (VBool false) (fresh [1%N]) =
  (Ok (VBool true), fresh []).
Proof.
  apply (boolean_follows_draw ascii_upper ascii_lower
           [(lit "type", VStr (lit "boolean"))] (VBool false) (fresh [1%N])).
  reflexivity.
Defined.

Lemma unsupported_items_pass_through_witness :
  run_recursive (VDict (array_of "date")) (VList [VInt 1; VStr (lit "x")])
                (fresh [3%N]) =
  (Ok (VList [VInt 1; VStr (lit "x")]),
   mkState [3%N] [VStr (lit "date"); VStr (lit "date")]).
Proof.
  apply (unsupported_items_pass_through ascii_upper ascii_lower
           (array_of "date") [(lit "type", VStr (lit "date"))]
           (VStr (lit "date")) [VInt 1; VStr (lit "x")] (fresh [3%N]));
    try reflexivity.
  intros s Hs. simpl in Hs.
  repeat (destruct Hs as [<- | Hs]; [vm_compute; discriminate|]).
  contradiction.
Defined.

Lemma random_replacement_shape_witness :
  exists s st',
    _mutate_string ascii_upper ascii_lower (VInt 5)
                   (fresh [7; 0; 1; 2; 3; 4; 5]%N) = (Ok (VStr s), st') /\
    (5 <= List.length s <= 15)%nat /\
    Forall (fun c => In c alphabet) s.
Proof.
  apply (random_replacement_shape ascii_upper ascii_lower). reflexivity.
Defined.


Lemma mutate_integer_raises_only_type_error_witness :
  TypeError = TypeError /\ integer_ok (VStr (lit "a")) = false.
Proof.
  apply (mutate_integer_raises_only_type_error (VStr (lit "a"))
           (fresh [0%N; 0%N]) TypeError (fresh [])).
  vm_compute. reflexivity.
Defined.

Lemma integer_boundary_probes_witness :
  _mutate_integer (VStr (lit "a")) (fresh [4%N]) =
  (Ok (VInt 2147483647), fresh []) /\
  _mutate_integer (VInt 10) (fresh [5%N]) = (Ok (VInt (-2147483648)), fresh []) /\
  _mutate_integer VNone (fresh [6%N]) = (Ok (VInt 0), fresh []).
Proof.
  split; [|split].
  - apply (integer_boundary_probes (VStr (lit "a")) (fresh [4%N])). reflexivity.
  - apply (integer_boundary_probes (VInt 10) (fresh [5%N])). reflexivity.
  - apply (integer_boundary_probes VNone (fresh [6%N])). reflexivity.
Defined.

Lemma number_special_values_witness :
  _mutate_number (VStr (lit "a")) (fresh [4%N]) =
  (Ok (VFloat infinity), fresh []) /\
  _mutate_number (VInt 10) (fresh [5%N]) = (Ok (VFloat neg_infinity), fresh []) /\
  _mutate_number VNone (fresh [6%N]) = (Ok (VFloat nan), fresh []).
Proof.
  split; [|split].
  - apply (number_special_values (VStr (lit "a")) (fresh [4%N])). reflexivity.
  - apply (number_special_values (VInt 10) (fresh [5%N])). reflexivity.
  - apply (number_special_values VNone (fresh [6%N])). reflexivity.
Defined.

Lemma mutate_number_returns_float_witness :
  exists g st', _mutate_number (VInt 3) (fresh [3; 0; 5]%N) = (Ok (VFloat g), st').
Proof. apply mutate_number_returns_float. vm_compute. reflexivity. Defined.

Lemma mutate_number_errors_witness :
  (TypeError = TypeError /\ integer_ok (VStr (lit "a")) = false) \/
  (TypeError = OverflowError /\ integer_ok (VStr (lit "a")) = true /\
   number_ok (VStr (lit "a")) = false).
Proof.
  apply (mutate_number_errors (VStr (lit "a")) (fresh [0%N; 0%N]) TypeError
           (fresh [])).
  vm_compute. reflexivity.
Defined.

Lemma number_overflow_on_big_int_witness :
  exists st',
    _mutate_number (VInt (10 ^ 400)) (fresh [3; 0; 0]%N) =
    (Raise OverflowError, st').
Proof.
  apply number_overflow_on_big_int; vm_compute; reflexivity.
Defined.

Lemma object_without_properties_witness :
  run_recursive (typed "object") (VDict sample_ab) (fresh [3%N]) =
  (Ok VNone, fresh [3%N]).
Proof.
  apply (object_without_properties ascii_upper ascii_lower
           [(lit "type", VStr (lit "object"))]); reflexivity.
Defined.

Lemma properties_not_a_container_witness :
  run_recursive
    (VDict [(lit "type", VStr (lit "object")); (lit "properties", VInt 5)])
    (VDict sample_ab) (fresh [3%N]) = (Raise TypeError, fresh [3%N]).
Proof.
  apply (properties_not_a_container ascii_upper ascii_lower
           [(lit "type", VStr (lit "object")); (lit "properties", VInt 5)]
           sample_ab (VInt 5) (fresh [3%N])); try reflexivity; exact I.
Defined.

Lemma integer_array_shape_witness :
  exists vs st',
    run_recursive (VDict (array_of "integer")) (VList [VInt 1; VInt 2; VInt 3])
                  (fresh [0; 0; 1; 1; 2; 2]%N) = (Ok (VList vs), st') /\
    List.length vs = 3%nat /\
    Forall (fun v => exists z, v = VInt z) vs.
Proof.
  apply (integer_array_shape ascii_upper ascii_lower (array_of "integer")
           [(lit "type", VStr (lit "integer"))]); try reflexivity.
  repeat constructor; eauto.
Defined.
